(** * Calibration-file service: filename parser, content extractor,
      ingestion and query endpoints (app.py, models.py)

    A shallow embedding of the Flask application.  Python [str] values are
    modelled as [string], one [ascii] per code point, so the development
    covers text whose code points are below 256 (Latin-1).  On that range the
    character classes of Python agree with the ones defined here: [\d] is
    exactly [0-9], [str.isspace] is true exactly of 9-13, 28-32, 133 and 160,
    and [str.splitlines] breaks exactly at 10-13, 28-30 and 133. *)

From Stdlib Require Import ZArith Ascii.
From stdpp Require Import gmap strings list fin_maps.

(** ** Python built-ins used by the application *)

Module Py.

Definition ord (c : ascii) : N := N_of_ascii c.

(** [c.isdigit()] as [\d] sees it. *)
Definition isdigit (c : ascii) : bool :=
  ((48 <=? ord c) && (ord c <=? 57))%N.

(** [c.isspace()]. *)
Definition isspace (c : ascii) : bool :=
  (((9 <=? ord c) && (ord c <=? 13)) || ((28 <=? ord c) && (ord c <=? 32))
   || (ord c =? 133) || (ord c =? 160))%N.

(** The characters at which [str.splitlines] ends a line. *)
Definition islinebreak (c : ascii) : bool :=
  (((10 <=? ord c) && (ord c <=? 13)) || ((28 <=? ord c) && (ord c <=? 30))
   || (ord c =? 133))%N.

Definition ascii_eqb (a b : ascii) : bool := bool_decide (a = b).

(** [s.startswith(p)]. *)
Fixpoint startswith (s p : string) {struct p} : bool :=
  match p, s with
  | EmptyString, _ => true
  | String a p', String b s' => ascii_eqb a b && startswith s' p'
  | String _ _, EmptyString => false
  end.

(** [s[n:]]. *)
Fixpoint slice_from (n : nat) (s : string) : string :=
  match n, s with
  | O, _ => s
  | S n', String _ s' => slice_from n' s'
  | S _, EmptyString => EmptyString
  end.

(** [s[:n]]. *)
Fixpoint slice_to (n : nat) (s : string) : string :=
  match n, s with
  | O, _ => EmptyString
  | S n', String c s' => String c (slice_to n' s')
  | S _, EmptyString => EmptyString
  end.

(** [s.endswith(p)]: the last [len(p)] characters of [s] are [p]. *)
Definition endswith (s p : string) : bool :=
  (String.length p <=? String.length s)%nat
  && bool_decide (slice_from (String.length s - String.length p) s = p).

(** [sub in s]. *)
Fixpoint contains (sub s : string) : bool :=
  startswith s sub ||
  match s with
  | EmptyString => false
  | String _ s' => contains sub s'
  end.

(** [s.find(sub)] as a cut: the text before the first occurrence of [sub]
    and the text after it. *)
Fixpoint cut (sub s : string) : option (string * string) :=
  if startswith s sub then Some (EmptyString, slice_from (String.length sub) s)
  else
    match s with
    | EmptyString => None
    | String c s' =>
        match cut sub s' with
        | Some (before, after) => Some (String c before, after)
        | None => None
        end
    end.

(** [s.split(sep, 1)]: at most one split, at the first occurrence. *)
Definition split1 (sep s : string) : list string :=
  match cut sep s with
  | Some (before, after) => [before; after]
  | None => [s]
  end.

Fixpoint lstrip (s : string) : string :=
  match s with
  | EmptyString => EmptyString
  | String c s' => if isspace c then lstrip s' else s
  end.

Fixpoint rstrip (s : string) : string :=
  match s with
  | EmptyString => EmptyString
  | String c s' =>
      match rstrip s' with
      | EmptyString => if isspace c then EmptyString else String c EmptyString
      | r => String c r
      end
  end.

(** [s.strip()]. *)
Definition strip (s : string) : string := rstrip (lstrip s).

(** [s.splitlines()]: no line for the text after a final line break, and
    a carriage return followed by a line feed is one break. *)
Fixpoint splitlines (s : string) : list string :=
  match s with
  | EmptyString => []
  | String c s' =>
      if islinebreak c then
        match s' with
        | String c' s'' =>
            if ascii_eqb c "013"%char && ascii_eqb c' "010"%char
            then EmptyString :: splitlines s''
            else EmptyString :: splitlines s'
        | EmptyString => [EmptyString]
        end
      else
        match splitlines s' with
        | [] => [String c EmptyString]
        | l :: ls => String c l :: ls
        end
  end.

(** Dynamically typed values that the parser's tuple can hold. *)
Inductive value : Type :=
| Str (s : string)
| Int (z : Z).

(** Exceptions, by class.  All of them derive from [Exception]; so does
    werkzeug's [HTTPException], which [abort] raises. *)
Inductive exn : Type :=
| HTTPException (code : Z) (description : string)
| SQLAlchemyError (msg : string)
| BSONDecodeError (msg : string)
| FileNotFoundError (msg : string)
| ValueError (msg : string)
| TypeError (msg : string)
| AttributeError (msg : string)
| OSError (msg : string).

(** The outcome of evaluating an expression. *)
Inductive except (A : Type) : Type :=
| Return (a : A)
| Raise (e : exn).
Arguments Return {A} a.
Arguments Raise {A} e.

#[global] Instance except_ret : MRet except := λ A a, Return a.
#[global] Instance except_bind : MBind except :=
  λ A B k m, match m with Return a => k a | Raise e => Raise e end.

(** [try: m  except Exception as e: h e], for code without other state. *)
Definition try_except {A} (m : except A) (h : exn → except A) : except A :=
  match m with
  | Return a => Return a
  | Raise e => h e
  end.

Definition exn_class_SQLAlchemyError (e : exn) : bool :=
  match e with SQLAlchemyError _ => true | _ => false end.

Definition exn_class_BSONDecodeError (e : exn) : bool :=
  match e with BSONDecodeError _ => true | _ => false end.

(** [str(code)] for the status codes [abort] is called with. *)
Definition status_line (code : Z) : string :=
  if (code =? 400)%Z then "400 Bad Request"
  else if (code =? 404)%Z then "404 Not Found"
  else if (code =? 415)%Z then "415 Unsupported Media Type"
  else if (code =? 500)%Z then "500 Internal Server Error"
  else "???".

(** [str(e)]: werkzeug prints an [HTTPException] as its status line, a
    colon and its description; the others print their message. *)
Definition str_exn (e : exn) : string :=
  match e with
  | HTTPException code description => status_line code +:+ ": " +:+ description
  | SQLAlchemyError msg | BSONDecodeError msg | FileNotFoundError msg
  | ValueError msg | TypeError msg | AttributeError msg | OSError msg => msg
  end.

Definition digit_value (c : ascii) : Z := (Z.of_N (ord c) - 48)%Z.

(** The digits of an integer literal, with single underscores allowed
    between digits. *)
Fixpoint int_digits (acc : Z) (after_digit : bool) (s : string) : option Z :=
  match s with
  | EmptyString => if after_digit then Some acc else None
  | String c s' =>
      if isdigit c then int_digits (10 * acc + digit_value c)%Z true s'
      else if ascii_eqb c "_"%char && after_digit then int_digits acc false s'
      else None
  end.

(** [int(s)] for a [str]: surrounding white space is dropped and one sign
    is allowed.  (The quoting of [s] in the message is abbreviated.) *)
Definition int_str (s : string) : except Z :=
  let t := strip s in
  let r :=
    match t with
    | String "+"%char d => int_digits 0 false d
    | String "-"%char d => Z.opp <$> int_digits 0 false d
    | _ => int_digits 0 false t
    end in
  match r with
  | Some z => Return z
  | None => Raise (ValueError ("invalid literal for int() with base 10: '" +:+ s +:+ "'"))
  end.

(** [int(v)]. *)
Definition int (v : value) : except Z :=
  match v with
  | Str s => int_str s
  | Int z => Return z
  end.

End Py.

(** ** The fragment of [re] that the filename pattern is written in *)

Module Re.
Import Py.

(** What matches one character. *)
Inductive atom : Type :=
| Lit (c : ascii)       (* a character, or an escaped one such as [\.] *)
| Digit.                (* [\d] *)

Inductive regex : Type :=
| Eps
| Atom (a : atom)
| Plus (a : atom)               (* [a+], greedy *)
| Rep (n : nat) (a : atom)      (* [a{n}] *)
| Cat (r1 r2 : regex)
| Group (r : regex).            (* a capturing group *)

Definition accepts (a : atom) (c : ascii) : bool :=
  match a with
  | Lit x => ascii_eqb x c
  | Digit => isdigit c
  end.

(** What is left of [s] after [a+], the longest run first: the order in
    which a backtracking matcher tries them. *)
Fixpoint plus (a : atom) (s : string) : list string :=
  match s with
  | EmptyString => []
  | String c s' => if accepts a c then plus a s' ++ [s'] else []
  end.

Fixpoint rep (n : nat) (a : atom) (s : string) : list string :=
  match n with
  | O => [s]
  | S n' =>
      match s with
      | EmptyString => []
      | String c s' => if accepts a c then rep n' a s' else []
      end
  end.

(** All the ways [r] matches at the start of [s], in the matcher's order
    of preference: the groups captured and the text that is left. *)
Fixpoint run (r : regex) (s : string) : list (list string * string) :=
  match r with
  | Eps => [([], s)]
  | Atom a =>
      match s with
      | EmptyString => []
      | String c s' => if accepts a c then [([], s')] else []
      end
  | Plus a => (λ s', ([], s')) <$> plus a s
  | Rep n a => (λ s', ([], s')) <$> rep n a s
  | Cat r1 r2 =>
      p1 ← run r1 s;
      p2 ← run r2 p1.2;
      [(p1.1 ++ p2.1, p2.2)]
  | Group r =>
      (λ p, (slice_to (String.length s - String.length p.2) s :: p.1, p.2)) <$> run r s
  end.

(** [re.match(r, s)]: the first way, anchored at the start of [s] only;
    the result is the match object's [groups()]. *)
Definition re_match (r : regex) (s : string) : option (list string) :=
  match run r s with
  | [] => None
  | p :: _ => Some p.1
  end.


(** A run of literal characters followed by [k]. *)
Fixpoint text (s : string) (k : regex) : regex :=
  match s with
  | EmptyString => k
  | String c s' => Cat (Atom (Lit c)) (text s' k)
  end.

End Re.

(** ** models.py *)

(** A content mapping: what [extract_file_details] builds and what
    [bson.loads] gives back. *)
Abbreviation dict := (gmap string string).

(** The [bson] package: the stored form of a mapping is opaque to the
    application, which only calls [dumps] and [loads]. *)
Class Bson : Type := {
  blob : Type;
  dumps : dict → Py.except blob;
  loads : blob → Py.except dict;
  (** Whether the installed package has the name
      [bson.errors.BSONDecodeError], which [get_content] looks up when it
      handles an exception. *)
  has_BSONDecodeError : bool;
}.

Module Models.
Import Py.

Section Model.
Context `{Bson}.

(** A [CalibrationData] object.  A column holds what was assigned to
    it; [content] is unset until [set_content] is called.  (The
    surrogate key [id] is given by the database and read nowhere.) *)
Record CalibrationData : Type := {
  filename : string;
  pandora_id : value;
  spectrometer_id : value;
  version : Z;
  validity_date : value;
  content : option blob;
}.

Definition set_content (self : CalibrationData) (json_data : dict)
  : except CalibrationData :=
  match dumps json_data with
  | Return b =>
      Return {| filename := filename self;
                pandora_id := pandora_id self;
                spectrometer_id := spectrometer_id self;
                version := version self;
                validity_date := validity_date self;
                content := Some b |}
  | Raise e => Raise e
  end.

Definition get_content (self : CalibrationData) : except dict :=
  match content self with
  | Some b => loads b
  | None => Raise (TypeError "a bytes-like object is required, not 'NoneType'")
  end.

End Model.
Arguments CalibrationData {_}.

End Models.

(** ** app.py *)

Module App.
Import Py Re Models.

(** [r"Pandora(\d+)s(\d+)_CF_v(\d+)d(\d{8})\.txt"] *)
Definition pattern : regex :=
  text "Pandora" (Cat (Group (Plus Digit))
  (text "s" (Cat (Group (Plus Digit))
  (text "_CF_v" (Cat (Group (Plus Digit))
  (text "d" (Cat (Group (Rep 8 Digit))
  (text ".txt" Eps)))))))).

(** The tuple of groups, or [None]. *)
Definition parse_filename (filename : string) : option (list value) :=
  match re_match pattern filename with
  | None => None
  | Some groups => Some (Str <$> groups)
  end.

(** One turn of the loop of [extract_file_details]. *)
Definition extract_line (data : dict) (line : string) : dict :=
  if contains "->" line then
    match split1 "->" line with
    | [key; value] => <[strip key := strip value]> data
    | _ => data
    end
  else data.

Definition extract_file_details (file_content : string) : dict :=
  foldl extract_line ∅ (splitlines file_content).

(** *** Requests, responses and the world around a request *)

(** A decoded JSON value, as [request.json] gives it (numbers as
    integers). *)
#[local] Unset Elimination Schemes.
Inductive json : Type :=
| JNull
| JBool (b : bool)
| JNumber (z : Z)
| JString (s : string)
| JArray (l : list json)
| JObject (l : list (string * json)).
#[local] Set Elimination Schemes.

(** [not v] for a decoded JSON value. *)
Definition falsy (v : json) : bool :=
  match v with
  | JNull | JBool false | JString EmptyString | JArray [] | JObject [] => true
  | JNumber z => (z =? 0)%Z
  | _ => false
  end.

Definition isinstance_list (v : json) : bool :=
  match v with JArray _ => true | _ => false end.

Record content_body : Type := {
  cb_filename : string;
  cb_pandora_id : value;
  cb_spectrometer_id : value;
  cb_version : Z;
  cb_validity_date : value;
  cb_content : dict;
}.

(** The JSON objects the views answer with. *)
Inductive body : Type :=
| ErrorMessage (error message : string)       (* the error handlers *)
| ErrorDetails (error details : string)
| Health (status : string) (details : option string)
| Processed (added skipped errors : nat) (error_messages : list string)
| Matches (response : list (string * dict))   (* filename, matched_content *)
| ContentOf (c : content_body)
| DefaultPage (code : Z) (description : string).  (* werkzeug's own page *)

Definition response : Type := body * Z.

(** The statements against the database. *)
Inductive db_op : Type :=
| FilterFirst (filename : string)   (* query.filter_by(filename=...).first() *)
| All                               (* query.all() *)
| Limit1                            (* query.limit(1).all() *)
| Commit.                           (* db.session.commit() *)

(** What a request finds outside the program: the directory, the files
    and the faults the storage layer raises. *)
Record world : Type := {
  path_exists : bool;
  listdir : except (list string);
  read : string → except string;
  db_fault : db_op → option exn;
}.

(** What Flask makes of a view's outcome: the response it returned, or
    for an exception that left the view the registered handler's answer
    (400, 404 and 500 are registered; any exception that is not an
    [HTTPException] goes to the 500 handler as an internal error). *)
Definition errorhandler (code : Z) (description : string) : option response :=
  if (code =? 400)%Z then Some (ErrorMessage "Bad Request" description, 400%Z)
  else if (code =? 404)%Z then Some (ErrorMessage "Not Found" description, 404%Z)
  else if (code =? 500)%Z then
    Some (ErrorMessage "Internal Server Error" description, 500%Z)
  else None.

Definition dispatch (outcome : except response) : response :=
  match outcome with
  | Return r => r
  | Raise (HTTPException code description) =>
      match errorhandler code description with
      | Some r => r
      | None => (DefaultPage code description, code)
      end
  | Raise _ =>
      (ErrorMessage "Internal Server Error"
         "The server encountered an internal error and was unable to complete your request. Either the server is overloaded or there is an error in the application.",
       500%Z)
  end.

(** [abort(code, description=...)]. *)
Definition abort {A} (code : Z) (description : string) : except A :=
  Raise (HTTPException code description).

Definition directory : string := "./calibration_files".

(** [os.path.join(a, b)]. *)
Definition path_join (a b : string) : string :=
  if startswith b "/" then b
  else if bool_decide (a = "") || endswith a "/" then a +:+ b
  else a +:+ "/" +:+ b.

Section Views.
Context `{Bson}.

(** The rows of the table and the objects added to the session; a
    query flushes the session first, so it sees both. *)
Record database : Type := {
  committed : list CalibrationData;
  pending : list CalibrationData;
}.

Definition visible (d : database) : list CalibrationData :=
  committed d ++ pending d.

(** [CalibrationData.query.filter_by(filename=name).first()]. *)
Definition filter_first (w : world) (d : database) (name : string)
  : except (option CalibrationData) :=
  match db_fault w (FilterFirst name) with
  | Some e => Raise e
  | None => Return (head (filter (λ r, filename r = name) (visible d)))
  end.

(** [CalibrationData.query.all()]. *)
Definition query_all (w : world) (d : database) : except (list CalibrationData) :=
  match db_fault w All with
  | Some e => Raise e
  | None => Return (visible d)
  end.

(** [CalibrationData.query.limit(1).all()]. *)
Definition query_limit1 (w : world) (d : database) : except (list CalibrationData) :=
  match db_fault w Limit1 with
  | Some e => Raise e
  | None => Return (take 1 (visible d))
  end.

(** *** [process_files] *)

(** The locals of [process_files] and the database. *)
Record state : Type := {
  added : nat;
  skipped : nat;
  errors : nat;
  error_messages : list string;
  db : database;
}.

Definition M (A : Type) : Type := state → except A * state.

#[local] Instance M_ret : MRet M := λ A a s, (Return a, s).
#[local] Instance M_bind : MBind M :=
  λ A B k m s, match m s with
               | (Return a, s') => k a s'
               | (Raise e, s') => (Raise e, s')
               end.

Definition lift {A} (r : except A) : M A := λ s, (r, s).
Definition modify (f : state → state) : M unit := λ s, (Return tt, f s).
Definition gets {A} (f : state → A) : M A := λ s, (Return (f s), s).

(** [try: m  except Exception as e: h e]; what [m] did to the state
    before it raised stays done. *)
Definition try_catch {A} (m : M A) (h : exn → M A) : M A :=
  λ s, match m s with
       | (Return a, s') => (Return a, s')
       | (Raise e, s') => h e s'
       end.

(** [for x in l: body x]; an exception leaves the loop. *)
Fixpoint for_each {A} (l : list A) (body : A → M unit) : M unit :=
  match l with
  | [] => mret tt
  | x :: l' => _ ← body x; for_each l' body
  end.

Definition set_db (d : database) (s : state) : state :=
  {| added := added s; skipped := skipped s; errors := errors s;
     error_messages := error_messages s; db := d |}.

(** [db.session.add(row)]. *)
Definition session_add (row : CalibrationData) : M unit :=
  modify (λ s, set_db {| committed := committed (db s);
                         pending := pending (db s) ++ [row] |} s).

(** [db.session.commit()]. *)
Definition session_commit (w : world) : M unit :=
  match db_fault w Commit with
  | Some e => lift (Raise e)
  | None =>
      modify (λ s, set_db {| committed := committed (db s) ++ pending (db s);
                             pending := [] |} s)
  end.

(** [db.session.rollback()]. *)
Definition session_rollback : M unit :=
  modify (λ s, set_db {| committed := committed (db s); pending := [] |} s).

(** The body of the inner [try] for one directory entry. *)
Definition process_entry (w : world) (filename : string) : M unit :=
  match parse_filename filename with
  | None | Some [] => mret tt                       (* continue *)
  | Some [pandora_id; spectrometer_id; version; validity_date] =>
      let file_path := path_join directory filename in
      content ← lift (read w file_path);
      let file_details := extract_file_details content in
      existing_entry ← (λ s, (filter_first w (db s) filename, s));
      match existing_entry with
      | Some _ =>
          modify (λ s, {| added := added s; skipped := S (skipped s);
                          errors := errors s;
                          error_messages := error_messages s; db := db s |})
      | None =>
          v ← lift (int version);
          let new_data :=
            {| Models.filename := filename;
               pandora_id := pandora_id;
               spectrometer_id := spectrometer_id;
               version := v;
               validity_date := validity_date;
               content := None |} in
          new_data ← lift (set_content new_data file_details);
          _ ← session_add new_data;
          modify (λ s, {| added := S (added s); skipped := skipped s;
                          errors := errors s;
                          error_messages := error_messages s; db := db s |})
      end
  | Some _ => lift (Raise (ValueError "wrong number of values to unpack"))
  end.

(** One turn of the loop over the directory. *)
Definition process_name (w : world) (filename : string) : M unit :=
  if negb (endswith filename ".txt") then mret tt   (* continue *)
  else
    try_catch (process_entry w filename)
      (λ e, modify (λ s,
         {| added := added s; skipped := skipped s; errors := S (errors s);
            error_messages :=
              error_messages s ++
              ["Error processing file " +:+ filename +:+ ": " +:+ str_exn e];
            db := db s |})).

Definition process_files_try (w : world) : M response :=
  _ ← (if negb (path_exists w)
       then lift (Raise (FileNotFoundError
                           ("Directory " +:+ directory +:+ " does not exist")))
       else mret tt);
  names ← lift (listdir w);
  _ ← for_each names (process_name w);
  _ ← session_commit w;
  s ← gets id;
  mret (Processed (added s) (skipped s) (errors s) (error_messages s), 200%Z).

Definition process_files_view (w : world) : M response :=
  try_catch (process_files_try w)
    (λ e,
       _ ← session_rollback;
       if exn_class_SQLAlchemyError e
       then mret (ErrorDetails "Database error occurred" (str_exn e), 500%Z)
       else mret (ErrorDetails "An unexpected error occurred" (str_exn e), 500%Z)).

(** A request to [/api/process_files] against the table [rows]: the
    response, and the table afterwards.  The session ends with the
    request, so what was not committed is gone. *)
Definition process_files (w : world) (rows : list CalibrationData)
  : response * list CalibrationData :=
  let s0 := {| added := 0; skipped := 0; errors := 0; error_messages := [];
               db := {| committed := rows; pending := [] |} |} in
  let '(outcome, s) := process_files_view w s0 in
  (dispatch outcome, committed (db s)).

(** *** [query_calibration_data] *)

(** [key in content] and [content.get(key)] for one requested key: a
    list or an object cannot be hashed, and nothing but a string is
    equal to a key of [content]. *)
Definition lookup_key (content : dict) (key : json)
  : except (option (string * string)) :=
  match key with
  | JString k => Return ((λ v, (k, v)) <$> content !! k)
  | JArray _ => Raise (TypeError "unhashable type: 'list'")
  | JObject _ => Raise (TypeError "unhashable type: 'dict'")
  | _ => Return None
  end.

(** [{key: content.get(key) for key in keys if key in content}]. *)
Fixpoint comprehension (content : dict) (keys : list json) (acc : dict)
  : except dict :=
  match keys with
  | [] => Return acc
  | key :: keys' =>
      hit ← lookup_key content key;
      match hit with
      | Some (k, v) => comprehension content keys' (<[k := v]> acc)
      | None => comprehension content keys' acc
      end
  end.

(** The loop over the rows. *)
Fixpoint scan (keys : list json) (results : list CalibrationData)
  (response : list (string * dict)) : except (list (string * dict)) :=
  match results with
  | [] => Return response
  | row :: results' =>
      content ← Models.get_content row;
      matched_content ← comprehension content keys ∅;
      if bool_decide (matched_content ≠ ∅)
      then scan keys results' (response ++ [(filename row, matched_content)])
      else scan keys results' response
  end.

Definition query_calibration_data_view (w : world)
  (rows : list CalibrationData) (request_json : except json) : except response :=
  try_except
    (keys ← request_json;
     if falsy keys || negb (isinstance_list keys)
     then abort 400 "Invalid or missing keys in request body"
     else
       match keys with
       | JArray keys =>
           results ← query_all w {| committed := rows; pending := [] |};
           response ← scan keys results [];
           Return (Matches response, 200%Z)
       | _ => abort 400 "Invalid or missing keys in request body"
       end)
    (λ e,
       if exn_class_SQLAlchemyError e
       then Return (ErrorDetails "Database error" (str_exn e), 500%Z)
       else Return (ErrorDetails "An unexpected error occurred" (str_exn e), 500%Z)).

(** A request to [/api/query]. *)
Definition query_calibration_data (w : world) (rows : list CalibrationData)
  (request_json : except json) : response :=
  dispatch (query_calibration_data_view w rows request_json).

(** *** [health_check] *)

Definition health_check_view (w : world) (rows : list CalibrationData)
  : except response :=
  try_except
    (_ ← query_limit1 w {| committed := rows; pending := [] |};
     Return (Health "healthy" None, 200%Z))
    (λ e, Return (Health "unhealthy" (Some (str_exn e)), 500%Z)).

(** A request to [/api/health]. *)
Definition health_check (w : world) (rows : list CalibrationData) : response :=
  dispatch (health_check_view w rows).

(** *** [get_content] *)

(** The handlers are tried in the order written; the class named by the
    first one is looked up when an exception reaches it, and a failed
    lookup is an exception of its own, which leaves the view. *)

Definition get_content_view (w : world) (rows : list CalibrationData)
  (arg_filename : option string) : except response :=
  try_except
    (match arg_filename with
     | None | Some EmptyString => abort 400 "Filename parameter is required"
     | Some filename =>
         entry ← filter_first w {| committed := rows; pending := [] |} filename;
         match entry with
         | None =>
             abort 404 ("No calibration data found for filename: " +:+ filename)
         | Some entry =>
             content ← Models.get_content entry;
             Return (ContentOf {| cb_filename := Models.filename entry;
                                  cb_pandora_id := pandora_id entry;
                                  cb_spectrometer_id := spectrometer_id entry;
                                  cb_version := version entry;
                                  cb_validity_date := validity_date entry;
                                  cb_content := content |}, 200%Z)
         end
     end)
    (λ e,
       if negb has_BSONDecodeError
       then Raise (AttributeError "module 'bson' has no attribute 'errors'")
       else if exn_class_BSONDecodeError e
       then abort 500 "Error decoding content data"
       else if exn_class_SQLAlchemyError e
       then Return (ErrorDetails "Database error" (str_exn e), 500%Z)
       else Return (ErrorDetails "An unexpected error occurred" (str_exn e), 500%Z)).

(** A request to [/api/get_content]; [arg_filename] is
    [request.args.get("filename")]. *)
Definition get_content (w : world) (rows : list CalibrationData)
  (arg_filename : option string) : response :=
  dispatch (get_content_view w rows arg_filename).

End Views.

End App.

(** ** A codec to run the model with

    The simplest document format: the list of the mapping's items. *)

#[local] Instance items_bson : Bson := {|
  blob := list (string * string);
  dumps m := Py.Return (map_to_list m);
  loads b := Py.Return (list_to_map b);
  has_BSONDecodeError := true;
|}.

(** ** What the specification calls a matching filename *)

Module Spec.
Import Py.

Fixpoint all_chars (p : ascii → bool) (s : string) : bool :=
  match s with
  | EmptyString => true
  | String c s' => p c && all_chars p s'
  end.

(** [<digits>]: one or more decimal digits. *)
Definition digits (s : string) : Prop :=
  s ≠ "" ∧ all_chars isdigit s = true.

(** [<8 digits>]. *)
Definition digits8 (s : string) : Prop :=
  String.length s = 8 ∧ all_chars isdigit s = true.

(** [Pandora<digits>s<digits>_CF_v<digits>d<8 digits>.txt] *)
Definition filename_of (a b c d : string) : string :=
  "Pandora" +:+ a +:+ "s" +:+ b +:+ "_CF_v" +:+ c +:+ "d" +:+ d +:+ ".txt".



(** The number a string of decimal digits denotes. *)
Fixpoint decimal (s : string) : Z :=
  match s with
  | EmptyString => 0
  | String c s' => (digit_value c * 10 ^ Z.of_nat (String.length s') + decimal s')%Z
  end.

(** What [re] means by a match, without an order of preference: [r]
    matches the text [w] and captures the groups [g]. *)
Fixpoint matches (r : Re.regex) (w : string) (g : list string) : Prop :=
  match r with
  | Re.Eps => w = "" ∧ g = []
  | Re.Atom a => ∃ c, Re.accepts a c = true ∧ w = String c "" ∧ g = []
  | Re.Plus a => w ≠ "" ∧ all_chars (Re.accepts a) w = true ∧ g = []
  | Re.Rep n a => String.length w = n ∧ all_chars (Re.accepts a) w = true ∧ g = []
  | Re.Cat r1 r2 =>
      ∃ w1 w2 g1 g2, w = w1 +:+ w2 ∧ g = g1 ++ g2 ∧ matches r1 w1 g1 ∧ matches r2 w2 g2
  | Re.Group r' => ∃ g', g = w :: g' ∧ matches r' w g'
  end.

(** A line feed. *)
Definition LF : string := String "010" "".

(** [line] splits at the first occurrence of [sep] into [before] and
    [after]. *)
Definition first_split (sep line before after : string) : Prop :=
  line = before +:+ sep +:+ after ∧
  ∀ b a, line = b +:+ sep +:+ a → (String.length before ≤ String.length b)%nat.

(** The line holds the entry [k -> v]: it splits at its first ["->"] into
    two sides that trim to [k] and to [v]. *)
Definition entry (line k v : string) : Prop :=
  ∃ before after, first_split "->" line before after ∧
                  k = strip before ∧ v = strip after.

(** Last write wins: some line holds [k -> v] and no line after it holds an
    entry for [k]. *)
Definition last_entry (lines : list string) (k v : string) : Prop :=
  ∃ l1 line l2, lines = l1 ++ line :: l2 ∧ entry line k v ∧
                ∀ line' v', line' ∈ l2 → ¬ entry line' k v'.

(** The part of a content mapping under the requested keys. *)
Definition restrict (keys : list string) (content : dict) : dict :=
  filter (λ kv, kv.1 ∈ keys) content.

(** Filter-by-keys over records given as filename and content: a record
    with no requested key is left out, any other one gives its filename
    and the part of its content under the requested keys. *)
Definition filter_by_keys (keys : list string) (records : list (string * dict))
  : list (string * dict) :=
  omap (λ r, if decide (restrict keys r.2 = ∅) then None
             else Some (r.1, restrict keys r.2)) records.

(** A world with an empty directory and a storage layer without faults. *)
Definition quiet : App.world :=
  {| App.path_exists := true;
     App.listdir := Return [];
     App.read := λ _, Raise (FileNotFoundError "No such file or directory");
     App.db_fault := λ _, None |}.

(** A world in which every statement against the database fails. *)
Definition locked : App.world :=
  {| App.path_exists := true;
     App.listdir := Return [];
     App.read := λ _, Raise (FileNotFoundError "No such file or directory");
     App.db_fault := λ _, Some (SQLAlchemyError "database is locked") |}.

(** A stored record with the content [{"a": "1", "b": "2"}]. *)
Definition sample_row : Models.CalibrationData :=
  {| Models.filename := "Pandora1s2_CF_v3d20230101.txt";
     Models.pandora_id := Str "1";
     Models.spectrometer_id := Str "2";
     Models.version := 3;
     Models.validity_date := Str "20230101";
     Models.content := Some [("a", "1"); ("b", "2")] |}.

(** A directory with two calibration files, a text file of another name,
    a file that is no text file, and a calibration file that cannot be
    read; the storage layer has no faults. *)
Definition shelf : App.world :=
  {| App.path_exists := true;
     App.listdir :=
       Return ["Pandora1s2_CF_v3d20230101.txt"; "notes.txt";
               "Pandora7s1_CF_v2d20240229.txt"; "README.md";
               "Pandora9s9_CF_v1d20200101.txt"];
     App.read := λ path,
       if bool_decide (path = "./calibration_files/Pandora1s2_CF_v3d20230101.txt")
       then Return ("a -> 1" +:+ LF +:+ "b -> 2")
       else if bool_decide (path = "./calibration_files/Pandora7s1_CF_v2d20240229.txt")
       then Return "k -> v"
       else if bool_decide (path = "./calibration_files/notes.txt")
       then Return "nothing"
       else Raise (OSError "[Errno 13] Permission denied");
     App.db_fault := λ _, None |}.

End Spec.

(** ** The ingestion loop, one case at a time *)

Section IngestionSpec.
Import Py Models App.
Context `{Bson}.

(** The record built for a new file from the parsed tuple and the text of
    the file. *)
Definition new_row (name : string) (a b c d : value) (text : string)
  : except CalibrationData :=
  v ← int c;
  set_content {| filename := name; pandora_id := a; spectrometer_id := b;
                 version := v; validity_date := d; content := None |}
              (extract_file_details text).

(** The message for a file that raised [e]. *)
Definition error_message (name : string) (e : exn) : string :=
  "Error processing file " +:+ name +:+ ": " +:+ str_exn e.

Definition count_error (name : string) (e : exn) (s : state) : state :=
  {| added := added s; skipped := skipped s; errors := S (errors s);
     error_messages := error_messages s ++ [error_message name e];
     db := db s |}.

Definition count_skipped (s : state) : state :=
  {| added := added s; skipped := S (skipped s); errors := errors s;
     error_messages := error_messages s; db := db s |}.

Definition count_added (row : CalibrationData) (s : state) : state :=
  {| added := S (added s); skipped := skipped s; errors := errors s;
     error_messages := error_messages s;
     db := {| committed := committed (db s); pending := pending (db s) ++ [row] |} |}.

(** What one turn of the loop over the directory does to the state. *)
Definition turn (w : world) (s : state) (name : string) : state :=
  if negb (endswith name ".txt") then s
  else
    match parse_filename name with
    | None | Some [] => s
    | Some [a; b; c; d] =>
        match read w (path_join directory name) with
        | Raise e => count_error name e s
        | Return text =>
            match filter_first w (db s) name with
            | Raise e => count_error name e s
            | Return (Some _) => count_skipped s
            | Return None =>
                match new_row name a b c d text with
                | Raise e => count_error name e s
                | Return row => count_added row s
                end
            end
        end
    | Some _ => count_error name (ValueError "wrong number of values to unpack") s
    end.

(** The state [process_files] starts in. *)
Definition start (rows : list CalibrationData) : state :=
  {| added := 0; skipped := 0; errors := 0; error_messages := [];
     db := {| committed := rows; pending := [] |} |}.

(** A file the loop can make a record of: its name parses, it can be read
    and its record can be built. *)
Definition addable (w : world) (name : string) : Prop :=
  ∃ a b c d text row,
    endswith name ".txt" = true ∧
    parse_filename name = Some [a; b; c; d] ∧
    read w (path_join directory name) = Return text ∧
    new_row name a b c d text = Return row.

(** The table holds a record of that filename. *)
Definition known (d : database) (name : string) : Prop :=
  name ∈ filename <$> visible d.


End IngestionSpec.

(** ** [get_calibration_file_info] *)

Section FileInfo.
Import Py Models App.
Context `{Bson}.

(** The JSON objects [get_calibration_file_info] answers with. *)
Inductive info_body : Type :=
| CalibrationFiles (calibration_files : list (string * value)) (count : nat)
| InfoError (error details : string).

(** [CalibrationData.query.with_entities(CalibrationData.filename,
    CalibrationData.pandora_id).all()]; [fault] is what the storage layer
    raises for this statement, if anything. *)
Definition query_entities (fault : option exn) (d : database)
  : except (list (string * value)) :=
  match fault with
  | Some e => Raise e
  | None => Return ((λ r, (filename r, pandora_id r)) <$> visible d)
  end.

Definition get_calibration_file_info_view (fault : option exn)
    (rows : list CalibrationData) : except (info_body * Z) :=
  try_except
    (files ← query_entities fault {| committed := rows; pending := [] |};
     let file_info := (λ file : string * value, (file.1, file.2)) <$> files in
     Return (CalibrationFiles file_info (length file_info), 200%Z))
    (λ e,
       if exn_class_SQLAlchemyError e
       then Return (InfoError "Database error" (str_exn e), 500%Z)
       else Return (InfoError "An unexpected error occurred" (str_exn e), 500%Z)).

(** A request to [/api/calibration_files]: the view's answer, or what
    Flask makes of an exception that left the view. *)
Definition get_calibration_file_info (fault : option exn)
    (rows : list CalibrationData) : (info_body * Z) + response :=
  match get_calibration_file_info_view fault rows with
  | Return r => inl r
  | Raise e => inr (dispatch (Raise e))
  end.

Definition info_status (r : (info_body * Z) + response) : Z :=
  match r with inl r | inr r => r.2 end.

End FileInfo.

(** ** Words for the further properties *)

Section FurtherSpec.
Import Py Models App.
Context `{Bson}.

(** A directory entry the loop looks into: a [.txt] name that parses. *)
Definition candidate (name : string) : bool :=
  endswith name ".txt" && bool_decide (is_Some (parse_filename name)).

(** A key that can be looked up in a mapping: anything but a list or an
    object. *)
Definition hashable (key : json) : bool :=
  match key with JArray _ | JObject _ => false | _ => true end.

(** The strings among the requested keys. *)
Definition key_strings (keys : list json) : list string :=
  omap (λ key, match key with JString k => Some k | _ => None end) keys.

(** The world [w] with another directory listing. *)
Definition with_listing (w : world) (names : list string) : world :=
  {| path_exists := path_exists w; listdir := Return names;
     read := read w; db_fault := db_fault w |}.


(** No character of [s] ends a line. *)
Definition one_line (s : string) : Prop :=
  Spec.all_chars (λ c, negb (islinebreak c)) s = true.

(** What is new in the table after the loop: records of candidates of the
    listing, with their content set, under filenames the table did not
    have. *)
Definition fresh (names : list string) (d : database) (r : CalibrationData) : Prop :=
  filename r ∈ names ∧ candidate (filename r) = true ∧ is_Some (content r) ∧
  ¬ known d (filename r).

(** What the loop does with one entry when that entry is the only one. *)
Definition alone (w : world) (rows : list CalibrationData) (name : string) : state :=
  turn w (start rows) name.

(** The answer of [process_files] when the request as a whole fails. *)
Definition failure (e : exn) : response :=
  (ErrorDetails (if exn_class_SQLAlchemyError e then "Database error occurred"
                 else "An unexpected error occurred") (str_exn e), 500%Z).


End FurtherSpec.

(** ** Facts about strings *)

Section StringFacts.
Import Py.

Example splitlines_ex :
  splitlines ("a" +:+ String "013" (String "010" ("b" +:+ String "010" (String "010" "c"))))
  = ["a"; "b"; ""; "c"].
Proof. reflexivity. Qed.

Example strip_ex : strip "  a b  " = "a b".
Proof. reflexivity. Qed.

Example split1_ex : split1 "->" "a->b->c" = ["a"; "b->c"].
Proof. reflexivity. Qed.

Lemma str_app_cons (x : ascii) (a b : string) : String x a +:+ b = String x (a +:+ b).
Proof. done. Qed.

Lemma str_app_nil_l (s : string) : "" +:+ s = s.
Proof. done. Qed.

Lemma str_app_nil_r (s : string) : s +:+ "" = s.
Proof. induction s as [|c s IH]; [done | by rewrite str_app_cons, IH]. Qed.

Lemma str_app_assoc (a b c : string) : (a +:+ b) +:+ c = a +:+ b +:+ c.
Proof. induction a as [|x a IH]; [done | by rewrite !str_app_cons, IH]. Qed.

Lemma str_length_app (a b : string) :
  String.length (a +:+ b) = (String.length a + String.length b)%nat.
Proof. induction a as [|x a IH]; [done | by rewrite str_app_cons; simpl; rewrite IH]. Qed.

Lemma str_app_eq_nil (a b : string) : a +:+ b = "" → a = "" ∧ b = "".
Proof. destruct a; [done | discriminate]. Qed.

Lemma slice_to_app (a b : string) :
  slice_to (String.length (a +:+ b) - String.length b) (a +:+ b) = a.
Proof.
  rewrite str_length_app.
  replace (String.length a + String.length b - String.length b)%nat
    with (String.length a) by lia.
  induction a as [|x a IH]; [by destruct b |].
  rewrite str_app_cons. simpl. by rewrite IH.
Qed.

Lemma slice_from_app (a b : string) : slice_from (String.length a) (a +:+ b) = b.
Proof. induction a as [|x a IH]; [done | by rewrite str_app_cons; simpl]. Qed.

Lemma ascii_eqb_true (a b : ascii) : ascii_eqb a b = true ↔ a = b.
Proof. unfold ascii_eqb. by rewrite bool_decide_eq_true. Qed.

Lemma startswith_spec (s p : string) :
  startswith s p = true ↔ ∃ t, s = p +:+ t.
Proof.
  revert s. induction p as [|a p IH]; intros s; simpl.
  - split; [eauto | by destruct s].
  - destruct s as [|b s].
    + split; [done | by intros [t ?]].
    + simpl. rewrite andb_true_iff, ascii_eqb_true, IH. split.
      * intros [-> [t ->]]. eauto.
      * intros [t Ht]. rewrite str_app_cons in Ht. injection Ht as -> ->. eauto.
Qed.

Lemma all_chars_app (p : ascii → bool) (a b : string) :
  Spec.all_chars p (a +:+ b) = Spec.all_chars p a && Spec.all_chars p b.
Proof.
  induction a as [|x a IH]; [done |].
  rewrite str_app_cons. simpl. by rewrite IH, andb_assoc.
Qed.

(** A run of characters of one class ends where the class ends. *)
Lemma run_unique (p : ascii → bool) (a a' : string) (x x' : ascii) (t t' : string) :
  Spec.all_chars p a = true → Spec.all_chars p a' = true →
  p x = false → p x' = false →
  a +:+ String x t = a' +:+ String x' t' →
  a = a' ∧ x = x' ∧ t = t'.
Proof.
  revert a'. induction a as [|y a IH]; intros [|y' a'] Ha Ha' Hx Hx' Heq;
    rewrite ?str_app_cons, ?str_app_nil_l in Heq; simpl in *.
  - by injection Heq as -> ->.
  - injection Heq as -> _. apply andb_true_iff in Ha' as [? _]. congruence.
  - injection Heq as -> _. apply andb_true_iff in Ha as [? _]. congruence.
  - injection Heq as -> Heq.
    apply andb_true_iff in Ha as [_ Ha]. apply andb_true_iff in Ha' as [_ Ha'].
    destruct (IH a' Ha Ha' Hx Hx' Heq) as (-> & -> & ->). done.
Qed.

(** Two texts of the same length that start the same string are equal. *)
Lemma same_length_unique (a a' t t' : string) :
  String.length a = String.length a' → a +:+ t = a' +:+ t' → a = a' ∧ t = t'.
Proof.
  revert a'. induction a as [|y a IH]; intros [|y' a'] Hl Heq;
    rewrite ?str_app_cons, ?str_app_nil_l in Heq; simpl in *; try discriminate.
  - done.
  - injection Heq as -> Heq. injection Hl as Hl.
    destruct (IH a' Hl Heq) as [-> ->]. done.
Qed.

End StringFacts.

(** ** The matcher finds exactly the matches *)

Section Matcher.
Import Py Re Spec.

Lemma plus_spec (a : atom) (s s' : string) :
  s' ∈ plus a s ↔
  ∃ w, w ≠ "" ∧ all_chars (accepts a) w = true ∧ s = w +:+ s'.
Proof.
  revert s'. induction s as [|c s IH]; intros s'; simpl.
  - split; [by intros ?%elem_of_nil |].
    intros (w & Hw & _ & Heq). symmetry in Heq.
    by apply str_app_eq_nil in Heq as [? _].
  - destruct (accepts a c) eqn:Hc.
    + rewrite elem_of_app, list_elem_of_singleton, IH. split.
      * intros [(w & Hw & Hall & ->) | ->].
        -- exists (String c w). rewrite str_app_cons. simpl. by rewrite Hc, Hall.
        -- exists (String c ""). simpl. by rewrite Hc.
      * intros ([|x w] & Hw & Hall & Heq); [done |].
        rewrite str_app_cons in Heq. injection Heq as <- ->.
        simpl in Hall. apply andb_true_iff in Hall as [_ Hall].
        destruct w as [|y w]; [by right |].
        left. by exists (String y w).
    + split; [by intros ?%elem_of_nil |].
      intros ([|x w] & Hw & Hall & Heq); [done |].
      rewrite str_app_cons in Heq. injection Heq as <- _.
      simpl in Hall. apply andb_true_iff in Hall as [? _]. congruence.
Qed.

Lemma rep_spec (n : nat) (a : atom) (s s' : string) :
  s' ∈ rep n a s ↔
  ∃ w, String.length w = n ∧ all_chars (accepts a) w = true ∧ s = w +:+ s'.
Proof.
  revert s. induction n as [|n IH]; intros s; simpl.
  - rewrite list_elem_of_singleton. split.
    + intros ->. by exists "".
    + intros ([|x w] & Hl & _ & ->); [done | discriminate].
  - destruct s as [|c s].
    + split; [by intros ?%elem_of_nil |].
      intros ([|x w] & Hl & _ & Heq); discriminate.
    + destruct (accepts a c) eqn:Hc.
      * rewrite IH. split.
        -- intros (w & Hl & Hall & ->). exists (String c w).
           rewrite str_app_cons. simpl. by rewrite Hc, Hall, Hl.
        -- intros ([|x w] & Hl & Hall & Heq); [discriminate |].
           rewrite str_app_cons in Heq. injection Heq as <- ->.
           simpl in Hall. apply andb_true_iff in Hall as [_ Hall].
           injection Hl as Hl. by exists w.
      * split; [by intros ?%elem_of_nil |].
        intros ([|x w] & Hl & Hall & Heq); [discriminate |].
        rewrite str_app_cons in Heq. injection Heq as <- _.
        simpl in Hall. apply andb_true_iff in Hall as [? _]. congruence.
Qed.

(** Soundness and completeness of [run]. *)
Lemma run_spec (r : regex) (s : string) (g : list string) (s' : string) :
  (g, s') ∈ run r s ↔ ∃ w, s = w +:+ s' ∧ matches r w g.
Proof.
  revert s g s'. induction r as [|a|a|n a|r1 IH1 r2 IH2|r IH]; intros s g s'; simpl.
  - rewrite list_elem_of_singleton. split.
    + intros [= -> ->]. by exists "".
    + by intros (w & -> & -> & ->).
  - destruct s as [|c s].
    + split; [by intros ?%elem_of_nil |].
      intros (w & Heq & c & _ & -> & _). discriminate.
    + destruct (accepts a c) eqn:Hc.
      * rewrite list_elem_of_singleton. split.
        -- intros [= -> ->]. exists (String c ""). eauto.
        -- intros (w & Heq & c' & _ & -> & ->). by injection Heq as -> ->.
      * split; [by intros ?%elem_of_nil |].
        intros (w & Heq & c' & Hc' & -> & ->). injection Heq as -> _. congruence.
  - rewrite list_elem_of_fmap. setoid_rewrite plus_spec. split.
    + intros (t & [= -> ->] & w & ? & ? & ->). by exists w.
    + intros (w & -> & ? & ? & ->). exists s'. split; [done |]. by exists w.
  - rewrite list_elem_of_fmap. setoid_rewrite rep_spec. split.
    + intros (t & [= -> ->] & w & ? & ? & ->). by exists w.
    + intros (w & -> & ? & ? & ->). exists s'. split; [done |]. by exists w.
  - rewrite list_elem_of_bind. split.
    + intros ([g1 s1] & Hin & (w1 & -> & Hm1)%IH1). simpl in Hin.
      apply list_elem_of_bind in Hin as ([g2 s2] & Hin & (w2 & -> & Hm2)%IH2).
      simpl in Hin. apply list_elem_of_singleton in Hin as [= -> ->].
      exists (w1 +:+ w2). rewrite str_app_assoc. split; [done |].
      by exists w1, w2, g1, g2.
    + intros (w & -> & w1 & w2 & g1 & g2 & -> & -> & Hm1 & Hm2).
      exists (g1, w2 +:+ s'). split.
      * apply list_elem_of_bind. exists (g2, s'). split.
        -- simpl. by apply list_elem_of_singleton.
        -- apply IH2. by exists w2.
      * apply IH1. exists w1. by rewrite str_app_assoc.
  - rewrite list_elem_of_fmap. split.
    + intros ([g' t] & [= -> ->] & (w & -> & Hm)%IH). simpl.
      exists w. split; [done |]. exists g'. by rewrite slice_to_app.
    + intros (w & -> & g' & -> & Hm). exists (g', s'). simpl.
      rewrite slice_to_app. split; [done |]. apply IH. by exists w.
Qed.

Lemma re_match_Some (r : regex) (s : string) (g : list string) :
  re_match r s = Some g → ∃ w s', s = w +:+ s' ∧ matches r w g.
Proof.
  unfold re_match. destruct (run r s) as [|[g' s'] l] eqn:Hrun; [done |].
  intros [= <-]. simpl.
  assert ((g', s') ∈ run r s) as (w & -> & Hm)%run_spec
    by (rewrite Hrun; apply list_elem_of_here).
  by exists w, s'.
Qed.

Lemma re_match_None (r : regex) (s : string) :
  re_match r s = None ↔ ∀ w s' g, s = w +:+ s' → ¬ matches r w g.
Proof.
  unfold re_match. split.
  - destruct (run r s) as [|p l] eqn:Hrun; [| done].
    intros _ w s' g -> Hm.
    assert ((g, s') ∈ run r (w +:+ s')) as Hin by (apply run_spec; eauto).
    rewrite Hrun in Hin. by apply elem_of_nil in Hin.
  - intros Hno. destruct (run r s) as [|[g' s'] l] eqn:Hrun; [done |].
    assert ((g', s') ∈ run r s) as (w & -> & Hm)%run_spec
      by (rewrite Hrun; apply list_elem_of_here).
    by destruct (Hno w s' g').
Qed.


End Matcher.

(** ** The filename parser *)

Section FilenameParser.
Import Py Re Spec App.

Lemma matches_text (t : string) (k : regex) (w : string) (g : list string) :
  matches (text t k) w g ↔ ∃ w', w = t +:+ w' ∧ matches k w' g.
Proof.
  revert w. induction t as [|c t IH]; intros w; simpl.
  - split; [eauto | by intros (w' & -> & ?)].
  - split.
    + intros (w1 & w2 & g1 & g2 & -> & -> & (c' & Hc & -> & ->) & Hm).
      apply ascii_eqb_true in Hc as <-.
      apply IH in Hm as (w' & -> & Hm). by exists w'.
    + intros (w' & -> & Hm). exists (String c ""), (t +:+ w'), [], g.
      repeat split; [| apply IH; eauto].
      exists c. by rewrite (proj2 (ascii_eqb_true c c)).
Qed.

Lemma matches_digits_group (k : regex) (w : string) (g : list string) :
  matches (Cat (Group (Plus Digit)) k) w g ↔
  ∃ a w' g', digits a ∧ w = a +:+ w' ∧ g = a :: g' ∧ matches k w' g'.
Proof.
  simpl. split.
  - intros (w1 & w2 & g1 & g2 & -> & -> & (g' & -> & ? & ? & ->) & Hm).
    by exists w1, w2, g2.
  - intros (a & w' & g' & [? ?] & -> & -> & Hm).
    exists a, w', [a], g'. repeat split; eauto.
Qed.

Lemma matches_digits8_group (k : regex) (w : string) (g : list string) :
  matches (Cat (Group (Rep 8 Digit)) k) w g ↔
  ∃ d w' g', digits8 d ∧ w = d +:+ w' ∧ g = d :: g' ∧ matches k w' g'.
Proof.
  simpl. split.
  - intros (w1 & w2 & g1 & g2 & -> & -> & (g' & -> & ? & ? & ->) & Hm).
    by exists w1, w2, g2.
  - intros (a & w' & g' & [? ?] & -> & -> & Hm).
    exists a, w', [a], g'. repeat split; eauto.
Qed.

(** What the pattern matches, and what it captures. *)
Lemma matches_pattern (w : string) (g : list string) :
  matches pattern w g ↔
  ∃ a b c d, digits a ∧ digits b ∧ digits c ∧ digits8 d ∧
             w = filename_of a b c d ∧ g = [a; b; c; d].
Proof.
  unfold pattern, filename_of. rewrite matches_text. split.
  - intros (w1 & -> & (a & w2 & g2 & Ha & -> & -> & Hm)%matches_digits_group).
    apply matches_text in Hm as (w3 & -> & Hm).
    apply matches_digits_group in Hm as (b & w4 & g4 & Hb & -> & -> & Hm).
    apply matches_text in Hm as (w5 & -> & Hm).
    apply matches_digits_group in Hm as (c & w6 & g6 & Hc & -> & -> & Hm).
    apply matches_text in Hm as (w7 & -> & Hm).
    apply matches_digits8_group in Hm as (d & w8 & g8 & Hd & -> & -> & Hm).
    apply matches_text in Hm as (w9 & -> & -> & ->).
    exists a, b, c, d. by rewrite str_app_nil_r.
  - intros (a & b & c & d & Ha & Hb & Hc & Hd & -> & ->).
    eexists. split; [done |].
    apply matches_digits_group. eexists a, _, _. repeat split; [apply Ha.. |].
    apply matches_text. eexists. split; [done |].
    apply matches_digits_group. eexists b, _, _. repeat split; [apply Hb.. |].
    apply matches_text. eexists. split; [done |].
    apply matches_digits_group. eexists c, _, _. repeat split; [apply Hc.. |].
    apply matches_text. eexists. split; [done |].
    apply matches_digits8_group. eexists d, _, _. repeat split; [apply Hd.. |].
    apply matches_text. exists "". by rewrite str_app_nil_r.
Qed.

(** The pattern reads a text in one way only. *)
Lemma filename_of_unique (a b c d a' b' c' d' t t' : string) :
  digits a → digits b → digits c → digits8 d →
  digits a' → digits b' → digits c' → digits8 d' →
  filename_of a b c d +:+ t = filename_of a' b' c' d' +:+ t' →
  a = a' ∧ b = b' ∧ c = c' ∧ d = d' ∧ t = t'.
Proof.
  intros [_ Ha] [_ Hb] [_ Hc] [Hld Hd] [_ Ha'] [_ Hb'] [_ Hc'] [Hld' Hd'].
  unfold filename_of. rewrite !str_app_assoc. intros Heq.
  apply (inj (String.app "Pandora")) in Heq.
  apply (run_unique isdigit) in Heq as (-> & _ & Heq); [| done..].
  apply (run_unique isdigit) in Heq as (-> & _ & Heq); [| done..].
  apply (inj (String.app "CF_v")) in Heq.
  apply (run_unique isdigit) in Heq as (-> & _ & Heq); [| done..].
  apply same_length_unique in Heq as [-> Heq]; [| congruence].
  by apply (inj (String.app ".txt")) in Heq.
Qed.


(** The parser's answer, for every string. *)
Lemma parse_filename_Some (s : string) (t : list value) :
  parse_filename s = Some t ↔
  ∃ a b c d rest, digits a ∧ digits b ∧ digits c ∧ digits8 d ∧
    s = filename_of a b c d +:+ rest ∧ t = [Str a; Str b; Str c; Str d].
Proof.
  unfold parse_filename. split.
  - destruct (re_match pattern s) as [g|] eqn:Hm; [| done].
    intros [= <-].
    apply re_match_Some in Hm as (w & rest & -> & Hm).
    apply matches_pattern in Hm as (a & b & c & d & ? & ? & ? & ? & -> & ->).
    by exists a, b, c, d, rest.
  - intros (a & b & c & d & rest & Ha & Hb & Hc & Hd & -> & ->).
    destruct (re_match pattern _) as [g|] eqn:Hm.
    + apply re_match_Some in Hm as (w & rest' & Heq & Hm).
      apply matches_pattern in Hm as (a' & b' & c' & d' & ? & ? & ? & ? & -> & ->).
      apply filename_of_unique in Heq as (-> & -> & -> & -> & _); done.
    + exfalso. eapply (proj1 (re_match_None _ _) Hm); [done |].
      apply matches_pattern. by exists a, b, c, d.
Qed.


End FilenameParser.

(** ** [int] on a run of digits *)

Section IntOfDigits.
Import Py Spec.

Lemma isdigit_not_space (c : ascii) : isdigit c = true → isspace c = false.
Proof.
  unfold isdigit, isspace. intros [H1 H2]%andb_true_iff.
  apply N.leb_le in H1, H2.
  repeat (apply orb_false_iff; split); try apply andb_false_iff;
    rewrite ?N.leb_gt, ?N.eqb_neq; lia.
Qed.

Lemma isdigit_not_sign (c : ascii) :
  isdigit c = true → c ≠ "+"%char ∧ c ≠ "-"%char.
Proof. by split; intros ->. Qed.

Lemma lstrip_digits (s : string) : all_chars isdigit s = true → lstrip s = s.
Proof.
  destruct s as [|c s]; simpl; [done |]. intros [Hc _]%andb_true_iff.
  by rewrite (isdigit_not_space c Hc).
Qed.

Lemma rstrip_digits (s : string) : all_chars isdigit s = true → rstrip s = s.
Proof.
  induction s as [|c s IH]; simpl; [done |]. intros [Hc Hs]%andb_true_iff.
  rewrite (IH Hs). destruct s; [| done]. by rewrite (isdigit_not_space c Hc).
Qed.

Lemma strip_digits (s : string) : all_chars isdigit s = true → strip s = s.
Proof. intros Hs. unfold strip. by rewrite (lstrip_digits s Hs), rstrip_digits. Qed.

Lemma int_digits_decimal (s : string) (acc : Z) (after_digit : bool) :
  all_chars isdigit s = true → s ≠ "" ∨ after_digit = true →
  int_digits acc after_digit s
  = Some (acc * 10 ^ Z.of_nat (String.length s) + decimal s)%Z.
Proof.
  revert acc after_digit. induction s as [|c s IH]; intros acc after_digit; simpl.
  - intros _ [? | ->]; [done |]. f_equal. lia.
  - intros [Hc Hs]%andb_true_iff _. rewrite Hc, IH by auto. f_equal.
    rewrite Nat2Z.inj_succ, Z.pow_succ_r by lia. lia.
Qed.

(** [int] reads a run of digits as the decimal number it denotes. *)
Lemma int_digits_string (s : string) : digits s → int (Str s) = Return (decimal s).
Proof.
  intros [Hne Hs]. simpl. unfold int_str. rewrite (strip_digits s Hs).
  destruct s as [|c s]; [done |].
  assert (isdigit c = true) as Hc by (by apply andb_true_iff in Hs as [? _]).
  destruct (isdigit_not_sign c Hc) as [Hplus Hminus].
  assert (int_digits 0 false (String c s) = Some (decimal (String c s))) as Hint.
  { by rewrite int_digits_decimal by auto. }
  destruct c as [[] [] [] [] [] [] [] []]; try done; try by rewrite Hint.
Qed.

End IntOfDigits.

(** ** The claims about the filename parser *)

Section ParserClaims.
Import Py Spec App.
Context `{Bson}.


(** C9 (amended): for every filename of the pattern's shape the parser
    gives the four digit substrings, all four as strings; the version is
    made an integer by [int] when [process_files] builds the record: the
    record's version is the number the digits denote, and its other three
    columns are the substrings as they are. *)
Theorem C9_groups_are_the_digit_substrings (a b c d : string) :
  digits a → digits b → digits c → digits8 d →
  parse_filename (filename_of a b c d) = Some [Str a; Str b; Str c; Str d] ∧
  int (Str c) = Return (decimal c) ∧
  ∀ name text row,
    new_row name (Str a) (Str b) (Str c) (Str d) text = Return row →
    Models.pandora_id row = Str a ∧ Models.spectrometer_id row = Str b ∧
    Models.version row = decimal c ∧ Models.validity_date row = Str d.
Proof.
  intros Ha Hb Hc Hd. split; [| split; [by apply int_digits_string |]].
  - apply parse_filename_Some. exists a, b, c, d, "". by rewrite str_app_nil_r.
  - intros name text row. unfold new_row. rewrite (int_digits_string c Hc). simpl.
    unfold Models.set_content. destruct (dumps _); [| done]. by intros [= <-].
Qed.

End ParserClaims.

Section ParserExamples.
Import Py Spec App.


(** C9, as stated, fails: the third component of the parser's tuple is
    the string ["3"], not the integer 3. *)
Lemma C9_version_is_a_string :
  parse_filename "Pandora1s2_CF_v3d20230101.txt"
  = Some [Str "1"; Str "2"; Str "3"; Str "20230101"] ∧
  parse_filename "Pandora1s2_CF_v3d20230101.txt"
  ≠ Some [Str "1"; Str "2"; Int 3; Str "20230101"].
Proof. split; by vm_compute. Qed.

Lemma C9_groups_witness :
  parse_filename (filename_of "12" "2" "007" "99999999")
  = Some [Str "12"; Str "2"; Str "007"; Str "99999999"] ∧
  int (Str "007") = Return (decimal "007") ∧
  ∀ name text row,
    new_row name (Str "12") (Str "2") (Str "007") (Str "99999999") text = Return row →
    Models.pandora_id row = Str "12" ∧ Models.spectrometer_id row = Str "2" ∧
    Models.version row = decimal "007" ∧ Models.validity_date row = Str "99999999".
Proof.
  apply (C9_groups_are_the_digit_substrings "12" "2" "007" "99999999");
    split; by vm_compute.
Defined.

Example parse_filename_examples :
  parse_filename "bad.txt" = None ∧
  parse_filename "pandora1s2_CF_v3d20230101.txt" = None ∧
  parse_filename "Pandora1s2_CF_v3d2023010.txt" = None ∧
  parse_filename "Pandora1s2_CF_v3d99999999.txt"
  = Some [Str "1"; Str "2"; Str "3"; Str "99999999"].
Proof. repeat split; by vm_compute. Qed.

End ParserExamples.

(** ** The content extractor *)

Section ContentExtractor.
Import Py Spec App.

Lemma cut_spec (sep s before after : string) :
  cut sep s = Some (before, after) ↔ first_split sep s before after.
Proof.
  revert before after. induction s as [|c s IH]; intros before after.
  - destruct sep as [|x sep]; simpl.
    + split.
      * intros [= <- <-]. split; [done |]. intros; simpl; lia.
      * intros [Heq _]. symmetry in Heq.
        apply str_app_eq_nil in Heq as [-> Heq]. by rewrite str_app_nil_l in Heq; subst.
    + split; [done |]. intros [Heq _]. symmetry in Heq.
      by apply str_app_eq_nil in Heq as [-> [? ->]%str_app_eq_nil].
  - cbn [cut]. destruct (startswith (String c s) sep) eqn:Hsw.
    + apply startswith_spec in Hsw as [t Ht]. rewrite Ht, slice_from_app. split.
      * intros [= <- <-]. split; [done |]. intros; simpl; lia.
      * intros [Heq Hmin]. specialize (Hmin "" t eq_refl). simpl in Hmin.
        destruct before; [| simpl in Hmin; lia].
        rewrite str_app_nil_l in Heq. by apply (inj (String.app sep)) in Heq as ->.
    + assert (∀ b a, String c s = b +:+ sep +:+ a →
                     ∃ b', b = String c b' ∧ s = b' +:+ sep +:+ a) as Hcons.
      { intros [|x b] a Heq.
        - rewrite str_app_nil_l in Heq.
          assert (startswith (String c s) sep = true) as Htrue
            by (apply startswith_spec; eauto).
          congruence.
        - rewrite str_app_cons in Heq. injection Heq as -> ->. eauto. }
      destruct (cut sep s) as [[b0 a0]|] eqn:Hcut.
      * destruct (proj1 (IH b0 a0) eq_refl) as [Heq Hmin]. split.
        -- intros [= <- <-]. split; [by rewrite str_app_cons, <- Heq |].
           intros b a (b' & -> & Hs)%Hcons. simpl. specialize (Hmin b' a Hs). lia.
        -- intros [(b' & -> & Hs)%Hcons Hmin'].
           assert (Some (b0, a0) = Some (b', after)) as [= -> ->]; [| done].
           apply IH. split; [done |]. intros b a Hba.
           specialize (Hmin' (String c b) a). rewrite str_app_cons, <- Hba in Hmin'.
           specialize (Hmin' eq_refl). simpl in Hmin'. lia.
      * split; [done |]. intros [(b' & -> & Hs)%Hcons Hmin'].
        assert (None = Some (b', after)) as Hcut'; [| done].
        apply IH. split; [done |]. intros b a Hba.
        specialize (Hmin' (String c b) a). rewrite str_app_cons, <- Hba in Hmin'.
        specialize (Hmin' eq_refl). simpl in Hmin'. lia.
Qed.

Lemma contains_cut (sep s : string) : contains sep s = true ↔ is_Some (cut sep s).
Proof.
  induction s as [|c s IH].
  - cbn [contains cut]. destruct (startswith "" sep); simpl; [by split; eauto |].
    split; [done | by intros [? ?]].
  - cbn [contains cut]. destruct (startswith (String c s) sep); simpl;
      [by split; eauto |].
    rewrite IH. destruct (cut sep s) as [[? ?]|]; split; eauto; by intros [? ?].
Qed.

(** A line without the delimiter cannot be split at it. *)
Lemma contains_spec (sep s : string) :
  contains sep s = true ↔ ∃ before after, s = before +:+ sep +:+ after.
Proof.
  rewrite contains_cut. split.
  - intros [[b a] [Heq _]%cut_spec]. eauto.
  - intros (b & a & ->). induction b as [|c b IH].
    + rewrite str_app_nil_l.
      assert (startswith (sep +:+ a) sep = true) as Hsw
        by (apply startswith_spec; eauto).
      destruct (sep +:+ a); cbn [cut]; rewrite Hsw; eauto.
    + rewrite str_app_cons. cbn [cut].
      destruct (startswith _ sep); [eauto |]. by destruct IH as [[? ?] ->].
Qed.

(** What [extract_line] does, by the entry its line holds. *)
Lemma extract_line_cut (data : dict) (line : string) :
  extract_line data line
  = match cut "->" line with
    | Some (before, after) => <[strip before := strip after]> data
    | None => data
    end.
Proof.
  unfold extract_line, split1.
  destruct (contains "->" line) eqn:Hc.
  - apply contains_cut in Hc as [[b a] ->]. done.
  - destruct (cut "->" line) as [[b a]|] eqn:Hcut; [| done].
    assert (contains "->" line = true) by (apply contains_cut; eauto). congruence.
Qed.

Lemma entry_cut (line k v : string) :
  entry line k v ↔ ∃ before after, cut "->" line = Some (before, after) ∧
                                  k = strip before ∧ v = strip after.
Proof. unfold entry. by setoid_rewrite cut_spec. Qed.

Lemma entry_unique (line k v k' v' : string) :
  entry line k v → entry line k' v' → k = k' ∧ v = v'.
Proof.
  intros (b & a & Hc & -> & ->)%entry_cut (b' & a' & Hc' & -> & ->)%entry_cut.
  rewrite Hc in Hc'. by injection Hc' as -> ->.
Qed.

Lemma extract_line_lookup (data : dict) (line k : string) :
  (∃ v, entry line k v ∧ extract_line data line !! k = Some v) ∨
  ((∀ v, ¬ entry line k v) ∧ extract_line data line !! k = data !! k).
Proof.
  rewrite extract_line_cut. destruct (cut "->" line) as [[b a]|] eqn:Hcut.
  - destruct (decide (strip b = k)) as [<- | Hne].
    + left. exists (strip a). rewrite lookup_insert_eq. split; [| done].
      apply entry_cut. eauto.
    + right. rewrite lookup_insert_ne by done. split; [| done].
      intros v (b' & a' & Hc' & -> & _)%entry_cut. congruence.
  - right. split; [| done]. intros v (b' & a' & Hc' & _)%entry_cut. congruence.
Qed.

(** The loop keeps, for every key, the entry of the last line that has one. *)
Lemma extract_lines_last_entry (lines : list string) (k v : string) :
  foldl extract_line ∅ lines !! k = Some v ↔ last_entry lines k v.
Proof.
  revert v. induction lines as [|x lines IH] using rev_ind; intros v.
  - simpl. rewrite lookup_empty. split; [done |].
    intros (l1 & line & l2 & Heq & _). by destruct l1.
  - rewrite foldl_app. simpl.
    destruct (extract_line_lookup (foldl extract_line ∅ lines) x k)
      as [(v0 & Hentry & ->) | [Hno ->]].
    + split.
      * intros [= <-]. exists lines, x, []. split; [done |]. split; [done |].
        by intros ? ? ?%elem_of_nil.
      * intros (l1 & line & l2 & Heq & Hline & Hlater).
        destruct l2 as [|y l2 _] using rev_ind.
        -- apply app_inj_tail in Heq as [_ <-].
           by destruct (entry_unique _ _ _ _ _ Hentry Hline) as [_ ->].
        -- rewrite app_comm_cons, app_assoc in Heq.
           apply app_inj_tail in Heq as [_ <-].
           destruct (Hlater x v0); [| done]. apply elem_of_app. right.
           by apply list_elem_of_singleton.
    + rewrite IH. split.
      * intros (l1 & line & l2 & -> & Hline & Hlater).
        exists l1, line, (l2 ++ [x]). split; [by rewrite <- app_assoc |].
        split; [done |]. intros line' v' [Hin | ->%list_elem_of_singleton]%elem_of_app.
        -- by apply Hlater.
        -- apply Hno.
      * intros (l1 & line & l2 & Heq & Hline & Hlater).
        destruct l2 as [|y l2 _] using rev_ind.
        -- apply app_inj_tail in Heq as [_ <-]. by destruct (Hno v).
        -- rewrite app_comm_cons, app_assoc in Heq.
           apply app_inj_tail in Heq as [-> <-].
           exists l1, line, l2. split; [done |]. split; [done |].
           intros line' v' Hin. apply Hlater. apply elem_of_app. by left.
Qed.






(** C5: the extractor maps a key to a value exactly when some line of the
    text holds that entry (split at its first ["->"], both sides trimmed)
    and no later line holds an entry for the key; a line without ["->"]
    leaves the mapping as it is; the empty text gives the empty mapping;
    and the example of the specification evaluates as stated. *)
Theorem C5_extract_file_details_last_write_wins :
  (∀ text k v,
     extract_file_details text !! k = Some v ↔ last_entry (splitlines text) k v) ∧
  (∀ data line,
     (∀ before after, line ≠ before +:+ "->" +:+ after) →
     extract_line data line = data) ∧
  extract_file_details "" = ∅ ∧
  extract_file_details
    ("a -> 1" +:+ LF +:+ "b->2" +:+ LF +:+ "ignored" +:+ LF +:+ "a -> 3")
  = {["a" := "3"; "b" := "2"]}.
Proof.
  split; [| split; [| split]].
  - intros text k v. apply extract_lines_last_entry.
  - intros data line Hno. rewrite extract_line_cut.
    destruct (cut "->" line) as [[b a]|] eqn:Hcut; [| done].
    apply cut_spec in Hcut as [Heq _]. by destruct (Hno b a).
  - done.
  - apply map_eq. intros k. apply option_eq. intros v.
    unfold extract_file_details. rewrite extract_lines_last_entry.
    assert (splitlines ("a -> 1" +:+ LF +:+ "b->2" +:+ LF +:+ "ignored" +:+ LF +:+ "a -> 3")
            = ["a -> 1"; "b->2"; "ignored"; "a -> 3"]) as -> by (by vm_compute).
    symmetry.
    destruct (decide (k = "a")) as [-> | Ha]; [| destruct (decide (k = "b")) as [-> | Hb]].
    + rewrite lookup_insert_eq. split.
      * intros [= <-]. exists ["a -> 1"; "b->2"; "ignored"], "a -> 3", [].
        split; [done |]. split; [| by intros ? ? ?%elem_of_nil].
        apply entry_cut. by exists "a ", " 3".
      * intros (l1 & line & l2 & Heq & Hline & Hlater).
        f_equal. symmetry.
        assert (entry "a -> 3" "a" "3") as Hlast
          by (apply entry_cut; by exists "a ", " 3").
        destruct l2 as [|y l2 _] using rev_ind.
        -- change ["a -> 1"; "b->2"; "ignored"; "a -> 3"]
             with (["a -> 1"; "b->2"; "ignored"] ++ ["a -> 3"]) in Heq.
           apply app_inj_tail in Heq as [_ <-].
           by destruct (entry_unique _ _ _ _ _ Hlast Hline).
        -- change ["a -> 1"; "b->2"; "ignored"; "a -> 3"]
             with (["a -> 1"; "b->2"; "ignored"] ++ ["a -> 3"]) in Heq.
           rewrite app_comm_cons, app_assoc in Heq.
           apply app_inj_tail in Heq as [_ <-].
           destruct (Hlater "a -> 3" "3"); [| done].
           apply elem_of_app. right. by apply list_elem_of_singleton.
    + rewrite lookup_insert_ne, lookup_singleton_eq by done. split.
      * intros [= <-]. exists ["a -> 1"], "b->2", ["ignored"; "a -> 3"].
        split; [done |]. split; [apply entry_cut; by exists "b", "2" |].
        intros line' v' Hin (b & a & Hc & Hk & _)%entry_cut.
        apply elem_of_cons in Hin as [-> | Hin]; [done |].
        apply list_elem_of_singleton in Hin as ->. by injection Hc as <- <-.
      * intros (l1 & line & l2 & Heq & (b & a & Hc & Hk & ->)%entry_cut & _).
        assert (line ∈ ["a -> 1"; "b->2"; "ignored"; "a -> 3"]) as Hin
          by (rewrite Heq; apply elem_of_app; right; apply list_elem_of_here).
        repeat (apply elem_of_cons in Hin as [-> | Hin]);
          try (by injection Hc as <- <-); try done.
        by apply elem_of_nil in Hin.
    + rewrite lookup_insert_ne, lookup_singleton_ne by done. split; [done |].
      intros (l1 & line & l2 & Heq & (b & a & Hc & Hk & ->)%entry_cut & _).
      assert (line ∈ ["a -> 1"; "b->2"; "ignored"; "a -> 3"]) as Hin
        by (rewrite Heq; apply elem_of_app; right; apply list_elem_of_here).
      repeat (apply elem_of_cons in Hin as [-> | Hin]);
        try (by injection Hc as <- <-); try done.
      by apply elem_of_nil in Hin.
Qed.



End ContentExtractor.

(** ** The read endpoints *)

Section Endpoints.
Import Py Spec Models App.
Context `{Bson}.

Lemma visible_committed (rows : list CalibrationData) :
  visible {| committed := rows; pending := [] |} = rows.
Proof. unfold visible. simpl. apply app_nil_r. Qed.

(** *** [/api/health] *)

Lemma health_check_probe_fails (w : world) (rows : list CalibrationData) (e : exn) :
  db_fault w Limit1 = Some e →
  health_check w rows = (Health "unhealthy" (Some (str_exn e)), 500%Z).
Proof.
  intros He. unfold health_check, health_check_view, query_limit1. by rewrite He.
Qed.

(** *** [/api/get_content] *)

(** Whatever the view raises or returns after [abort], the status is 500:
    [abort] raises an [HTTPException], which is an [Exception], so the
    handlers of the view's own [try] get it. *)
Lemma get_content_missing_parameter (w : world) (rows : list CalibrationData) :
  (get_content w rows None).2 = 500%Z ∧ (get_content w rows (Some "")).2 = 500%Z.
Proof.
  unfold get_content, get_content_view. simpl.
  by destruct has_BSONDecodeError.
Qed.

Lemma get_content_unknown_filename (w : world) (rows : list CalibrationData)
    (name : string) :
  name ≠ "" →
  db_fault w (FilterFirst name) = None →
  (∀ r, r ∈ rows → filename r ≠ name) →
  (get_content w rows (Some name)).2 = 500%Z.
Proof.
  intros Hne Hok Habsent. unfold get_content, get_content_view, filter_first.
  rewrite Hok, visible_committed.
  assert (filter (λ r, filename r = name) rows = []) as ->.
  { apply elem_of_nil_inv. intros r [Hr Hin]%list_elem_of_filter.
    by apply (Habsent r). }
  destruct name; [done |]. simpl. by destruct has_BSONDecodeError.
Qed.

(** *** [/api/query] *)

Lemma query_invalid_body (w : world) (rows : list CalibrationData) (body : json) :
  falsy body || negb (isinstance_list body) = true →
  query_calibration_data w rows (Return body)
  = (ErrorDetails "An unexpected error occurred"
       "400 Bad Request: Invalid or missing keys in request body", 500%Z).
Proof.
  intros Hbad. unfold query_calibration_data, query_calibration_data_view.
  simpl. by rewrite Hbad.
Qed.

Lemma query_unreadable_body (w : world) (rows : list CalibrationData) (e : exn) :
  (query_calibration_data w rows (Raise e)).2 = 500%Z.
Proof.
  unfold query_calibration_data, query_calibration_data_view. simpl.
  by destruct (exn_class_SQLAlchemyError e).
Qed.

Lemma restrict_lookup (keys : list string) (content : dict) (k : string) :
  restrict keys content !! k = if decide (k ∈ keys) then content !! k else None.
Proof.
  unfold restrict. rewrite map_lookup_filter.
  destruct (content !! k) as [v|]; simpl; [| by case_decide].
  case_decide; [by rewrite option_guard_True | by rewrite option_guard_False].
Qed.

Lemma restrict_nonempty (keys : list string) (content : dict) :
  restrict keys content ≠ ∅ ↔ ∃ k, k ∈ keys ∧ is_Some (content !! k).
Proof.
  split.
  - intros Hne. apply map_choose in Hne as (k & v & Hk).
    rewrite restrict_lookup in Hk. case_decide; [eauto | done].
  - intros (k & Hin & [v Hv]) Hempty.
    assert (restrict keys content !! k = Some v) as Hk
      by (rewrite restrict_lookup; by case_decide).
    by rewrite Hempty, lookup_empty in Hk.
Qed.

Lemma comprehension_restrict (content : dict) (keys : list string) (acc : dict) :
  (∀ k v, acc !! k = Some v → content !! k = Some v) →
  comprehension content (JString <$> keys) acc = Return (restrict keys content ∪ acc).
Proof.
  revert acc. induction keys as [|k keys IH]; intros acc Hacc; simpl.
  - f_equal. apply map_eq. intros j.
    rewrite lookup_union, restrict_lookup. case_decide as Hj; [| by destruct (acc !! j)].
    by apply elem_of_nil in Hj.
  - destruct (content !! k) as [v|] eqn:Hk; simpl.
    + rewrite IH.
      * f_equal. apply map_eq. intros j.
        rewrite !lookup_union, !restrict_lookup.
        destruct (decide (j = k)) as [-> | Hne].
        -- rewrite lookup_insert_eq, Hk.
           rewrite (decide_True (P := k ∈ k :: keys)) by apply list_elem_of_here.
           case_decide; by destruct (acc !! k).
        -- rewrite lookup_insert_ne by done.
           destruct (decide (j ∈ keys)) as [Hin | Hnin].
           ++ by rewrite (decide_True (P := j ∈ k :: keys))
                by (by apply list_elem_of_further).
           ++ rewrite (decide_False (P := j ∈ k :: keys)); [done |].
              by intros [? | ?]%elem_of_cons.
      * intros j u. destruct (decide (j = k)) as [-> | Hne].
        -- rewrite lookup_insert_eq. congruence.
        -- rewrite lookup_insert_ne by done. apply Hacc.
    + rewrite IH by done. f_equal. apply map_eq. intros j.
      rewrite !lookup_union, !restrict_lookup.
      destruct (decide (j = k)) as [-> | Hne].
      * rewrite Hk. by repeat case_decide.
      * destruct (decide (j ∈ keys)) as [Hin | Hnin].
        -- by rewrite (decide_True (P := j ∈ k :: keys))
             by (by apply list_elem_of_further).
        -- rewrite (decide_False (P := j ∈ k :: keys)); [done |].
           by intros [? | ?]%elem_of_cons.
Qed.

Lemma scan_filter_by_keys (keys : list string) (rows : list CalibrationData)
    (contents : list dict) (response : list (string * dict)) :
  Forall2 (λ r c, Models.get_content r = Return c) rows contents →
  scan (JString <$> keys) rows response
  = Return (response ++ filter_by_keys keys (zip (filename <$> rows) contents)).
Proof.
  intros Hdec. revert response.
  induction Hdec as [|r c rows contents Hr _ IH]; intros response; simpl.
  - by rewrite app_nil_r.
  - rewrite Hr. simpl. rewrite comprehension_restrict by (intros ? ?; by rewrite lookup_empty).
    simpl. rewrite (right_id_L ∅ (∪)).
    unfold filter_by_keys in *. simpl. case_bool_decide as Hm.
    + rewrite decide_False by done. rewrite IH. by rewrite <- app_assoc.
    + rewrite decide_True by done. apply IH.
Qed.

(** C2 (amended): when the probe of the database fails, [/api/health]
    answers with status 500 and a body whose status is ["unhealthy"], with
    the failure as details; when it succeeds, with 200 and ["healthy"]. *)
Theorem C2_health_check_status (w : world) (rows : list CalibrationData) :
  match db_fault w Limit1 with
  | Some e => health_check w rows = (Health "unhealthy" (Some (str_exn e)), 500%Z)
  | None => health_check w rows = (Health "healthy" None, 200%Z)
  end.
Proof.
  destruct (db_fault w Limit1) as [e|] eqn:He.
  - by apply health_check_probe_fails.
  - unfold health_check, health_check_view, query_limit1. by rewrite He.
Qed.

(** C3 (what the code does): for a filename without a stored record, and
    for a request without the parameter, [/api/get_content] answers with
    status 500, not with 404 or 400. *)
Theorem C3_get_content_answers_500 (w : world) (rows : list CalibrationData)
    (name : string) :
  name ≠ "" →
  db_fault w (FilterFirst name) = None →
  (∀ r, r ∈ rows → filename r ≠ name) →
  (get_content w rows (Some name)).2 = 500%Z ∧
  (get_content w rows None).2 = 500%Z.
Proof.
  intros Hne Hok Habsent. split.
  - by apply get_content_unknown_filename.
  - apply get_content_missing_parameter.
Qed.

(** C4 (what the code does): for a body that is empty, null or not a
    list, and for a body that cannot be read as JSON at all, [/api/query]
    answers with status 500, not with 400. *)
Theorem C4_query_answers_500 (w : world) (rows : list CalibrationData) (body : json) :
  falsy body || negb (isinstance_list body) = true →
  query_calibration_data w rows (Return body)
  = (ErrorDetails "An unexpected error occurred"
       "400 Bad Request: Invalid or missing keys in request body", 500%Z) ∧
  ∀ e, (query_calibration_data w rows (Raise e)).2 = 500%Z.
Proof.
  intros Hbad. split.
  - by apply query_invalid_body.
  - intros e. apply query_unreadable_body.
Qed.

(** C7: for stored records whose contents decode and a non-empty list of
    key strings, [/api/query] answers with status 200 and, in the order of
    the records, the filename and the part of the content under the
    requested keys for exactly the records that have at least one of the
    keys; a record with none of them does not occur in the answer. *)
Theorem C7_query_filters_by_keys (w : world) (rows : list CalibrationData)
    (keys : list string) (contents : list dict) :
  keys ≠ [] →
  db_fault w All = None →
  Forall2 (λ r c, Models.get_content r = Return c) rows contents →
  query_calibration_data w rows (Return (JArray (JString <$> keys)))
  = (Matches (filter_by_keys keys (zip (filename <$> rows) contents)), 200%Z) ∧
  (∀ name m,
     (name, m) ∈ filter_by_keys keys (zip (filename <$> rows) contents) ↔
     ∃ c, (name, c) ∈ zip (filename <$> rows) contents ∧ m = restrict keys c ∧
          ∃ k, k ∈ keys ∧ is_Some (c !! k)) ∧
  (∀ c k, restrict keys c !! k = if decide (k ∈ keys) then c !! k else None).
Proof.
  intros Hkeys Hok Hdec. split; [| split].
  - unfold query_calibration_data, query_calibration_data_view, query_all.
    destruct keys as [|k keys]; [done |]. simpl.
    rewrite Hok, visible_committed. simpl.
    pose proof (scan_filter_by_keys (k :: keys) rows contents [] Hdec) as Hscan.
    simpl in Hscan. by rewrite Hscan.
  - intros name m. unfold filter_by_keys. rewrite list_elem_of_omap. split.
    + intros ([f c] & Hin & Hsome). simpl in Hsome.
      case_decide as Hm; [done |]. injection Hsome as <- <-.
      exists c. split; [done |]. split; [done |]. by apply restrict_nonempty.
    + intros (c & Hin & -> & Hk). exists (name, c). split; [done |]. simpl.
      rewrite decide_False; [done |]. by apply restrict_nonempty.
  - intros c k. apply restrict_lookup.
Qed.

End Endpoints.

Section EndpointExamples.
Import Py Spec Models App.

(** C2, as stated, fails: a failed probe is answered with status 500. *)
Lemma C2_failed_probe_is_not_200 :
  db_fault locked Limit1 = Some (SQLAlchemyError "database is locked") ∧
  health_check locked [] = (Health "unhealthy" (Some "database is locked"), 500%Z) ∧
  (health_check locked []).2 ≠ 200%Z.
Proof. repeat split; by vm_compute. Qed.

Lemma C3_get_content_witness :
  (get_content quiet [] (Some "nope.txt")).2 = 500%Z ∧
  (get_content quiet [] None).2 = 500%Z.
Proof.
  apply (C3_get_content_answers_500 quiet [] "nope.txt");
    [done | done | by intros ? ?%elem_of_nil].
Defined.

(** The whole answer for an unknown filename: the 404 that [abort] raised
    is reported as the details of a 500. *)
Example get_content_unknown_filename_response :
  get_content quiet [] (Some "nope.txt")
  = (ErrorDetails "An unexpected error occurred"
       "404 Not Found: No calibration data found for filename: nope.txt", 500%Z).
Proof. by vm_compute. Qed.

Example get_content_missing_parameter_response :
  get_content quiet [] None
  = (ErrorDetails "An unexpected error occurred"
       "400 Bad Request: Filename parameter is required", 500%Z).
Proof. by vm_compute. Qed.

Lemma C4_query_witness :
  query_calibration_data quiet [sample_row] (Return (JArray []))
  = (ErrorDetails "An unexpected error occurred"
       "400 Bad Request: Invalid or missing keys in request body", 500%Z) ∧
  ∀ e, (query_calibration_data quiet [sample_row] (Raise e)).2 = 500%Z.
Proof. apply (C4_query_answers_500 quiet [sample_row] (JArray [])). reflexivity. Defined.

Example query_not_a_list_response :
  (query_calibration_data quiet [sample_row] (Return (JObject [("a", JNull)]))).2 = 500%Z ∧
  (query_calibration_data quiet [sample_row] (Return JNull)).2 = 500%Z ∧
  (query_calibration_data quiet [sample_row] (Return (JString "a"))).2 = 500%Z.
Proof. repeat split; by vm_compute. Qed.

Lemma C7_query_witness :
  query_calibration_data quiet [sample_row] (Return (JArray (JString <$> ["a"; "c"])))
  = (Matches (filter_by_keys ["a"; "c"]
                (zip (filename <$> [sample_row]) [list_to_map [("a", "1"); ("b", "2")]])),
     200%Z) ∧
  (∀ name m,
     (name, m) ∈ filter_by_keys ["a"; "c"]
                   (zip (filename <$> [sample_row]) [list_to_map [("a", "1"); ("b", "2")]]) ↔
     ∃ c, (name, c) ∈ zip (filename <$> [sample_row]) [list_to_map [("a", "1"); ("b", "2")]] ∧
          m = restrict ["a"; "c"] c ∧ ∃ k, k ∈ ["a"; "c"] ∧ is_Some (c !! k)) ∧
  (∀ (c : dict) k,
     restrict ["a"; "c"] c !! k = if decide (k ∈ ["a"; "c"]) then c !! k else None).
Proof.
  apply (C7_query_filters_by_keys quiet [sample_row] ["a"; "c"]
           [list_to_map [("a", "1"); ("b", "2")]]).
  - done.
  - reflexivity.
  - repeat constructor.
Defined.

(** The example of the specification: the keys [a] and [c] give the part
    under [a]; the key [c] alone leaves the record out. *)
Example query_example :
  query_calibration_data quiet [sample_row] (Return (JArray [JString "a"; JString "c"]))
  = (Matches [("Pandora1s2_CF_v3d20230101.txt", {["a" := "1"]})], 200%Z) ∧
  query_calibration_data quiet [sample_row] (Return (JArray [JString "c"]))
  = (Matches [], 200%Z).
Proof. split; by vm_compute. Qed.

End EndpointExamples.

(** ** The ingestion loop *)

Section Ingestion.
Import Py Spec Models App.
Context `{Bson}.

(** One turn of the loop never raises, and is [turn]. *)
Lemma process_name_turn (w : world) (name : string) (s : state) :
  process_name w name s = (Return tt, turn w s name).
Proof.
  unfold process_name, turn. destruct (endswith name ".txt"); simpl; [| done].
  unfold try_catch, process_entry.
  destruct (parse_filename name) as [[|a [|b [|c [|d [|x t]]]]]|]; try done.
  unfold mbind, M_bind, lift. simpl.
  destruct (read w (path_join directory name)) as [text | e]; [| done].
  destruct (filter_first w (db s) name) as [[r|] | e]; try done.
  unfold new_row. destruct (int c) as [v | e]; simpl; [| done].
  unfold set_content. by destruct (dumps (extract_file_details text)).
Qed.

(** The loop runs through the whole directory. *)
Lemma for_each_turns (w : world) (names : list string) (s : state) :
  for_each names (process_name w) s = (Return tt, foldl (turn w) s names).
Proof.
  revert s. induction names as [|name names IH]; intros s; simpl; [done |].
  unfold mbind, M_bind. by rewrite process_name_turn, IH.
Qed.

(** *** The whole request *)

Lemma process_files_run (w : world) (rows : list CalibrationData) (names : list string) :
  path_exists w = true → listdir w = Return names → db_fault w Commit = None →
  let s := foldl (turn w) (start rows) names in
  process_files w rows
  = ((Processed (added s) (skipped s) (errors s) (error_messages s), 200%Z),
     visible (db s)).
Proof.
  intros Hdir Hlist Hcommit. unfold process_files, process_files_view, try_catch,
    process_files_try.
  rewrite Hdir, Hlist. unfold mbind, M_bind, mret, M_ret, lift. simpl.
  rewrite for_each_turns. unfold session_commit. rewrite Hcommit. done.
Qed.

(** A request that answers with counts ran the loop over the directory
    and committed. *)
Lemma process_files_succeeds (w : world) (rows rows' : list CalibrationData)
    (n_added n_skipped n_errors : nat) (messages : list string) :
  process_files w rows
  = ((Processed n_added n_skipped n_errors messages, 200%Z), rows') →
  ∃ names, path_exists w = true ∧ listdir w = Return names ∧
           db_fault w Commit = None.
Proof.
  unfold process_files, process_files_view, try_catch, process_files_try.
  destruct (path_exists w); simpl.
  - unfold mbind, M_bind, mret, M_ret, lift. simpl.
    destruct (listdir w) as [names | e]; simpl.
    + rewrite for_each_turns. unfold session_commit.
      destruct (db_fault w Commit) as [e|]; simpl; [| by eauto].
      by destruct (exn_class_SQLAlchemyError e).
    + by destruct (exn_class_SQLAlchemyError e).
  - done.
Qed.

(** *** What the loop does to the table *)

Lemma new_row_filename (name : string) (a b c d : value) (text : string)
    (row : CalibrationData) :
  new_row name a b c d text = Return row → filename row = name.
Proof.
  unfold new_row. destruct (int c) as [v | e]; simpl; [| done].
  unfold set_content. destruct (dumps _); [| done]. by intros [= <-].
Qed.

Lemma filter_first_known (w : world) (d : database) (name : string) :
  db_fault w (FilterFirst name) = None →
  (known d name ∧ ∃ r, filter_first w d name = Return (Some r)) ∨
  (¬ known d name ∧ filter_first w d name = Return None).
Proof.
  intros Hok. unfold filter_first, known. rewrite Hok.
  destruct (filter (λ r, filename r = name) (visible d)) as [|r l] eqn:Hf.
  - right. split; [| done]. intros (r & Hr & Hin)%list_elem_of_fmap.
    assert (r ∈ filter (λ r, filename r = name) (visible d)) as Hin'
      by (by apply list_elem_of_filter).
    rewrite Hf in Hin'. by apply elem_of_nil in Hin'.
  - left. split; [| by eauto].
    assert (r ∈ filter (λ r, filename r = name) (visible d)) as Hin
      by (rewrite Hf; apply list_elem_of_here).
    apply list_elem_of_filter in Hin as [Hr Hin].
    apply list_elem_of_fmap. by exists r.
Qed.

(** A turn leaves the table as it is or adds one record, of the file it
    looked at, which was not known. *)
Lemma turn_db (w : world) (s : state) (name : string) :
  db (turn w s name) = db s ∨
  ∃ row, db (turn w s name)
         = {| committed := committed (db s); pending := pending (db s) ++ [row] |} ∧
         filename row = name ∧ addable w name ∧ ¬ known (db s) name.
Proof.
  unfold turn. destruct (endswith name ".txt") eqn:Htxt; simpl; [| by left].
  destruct (parse_filename name) as [[|a [|b [|c [|d [|x t]]]]]|] eqn:Hp;
    try by left.
  destruct (read w (path_join directory name)) as [text | e] eqn:Hr; [| by left].
  destruct (db_fault w (FilterFirst name)) as [e|] eqn:Hf.
  { unfold filter_first. rewrite Hf. by left. }
  destruct (filter_first_known w (db s) name Hf) as [[_ [r ->]] | [Hnew ->]];
    [by left |].
  destruct (new_row name a b c d text) as [row | e] eqn:Hrow; [| by left].
  right. exists row. split; [done |]. split; [by eapply new_row_filename |].
  split; [| done]. by exists a, b, c, d, text, row.
Qed.

Lemma turns_db (w : world) (names : list string) (s : state) :
  ∃ extra,
    db (foldl (turn w) s names)
    = {| committed := committed (db s); pending := pending (db s) ++ extra |} ∧
    Forall (λ r, addable w (filename r)) extra.
Proof.
  revert s. induction names as [|name names IH]; intros s; simpl.
  - exists []. rewrite app_nil_r. by destruct (db s).
  - destruct (IH (turn w s name)) as (extra & -> & Hextra).
    destruct (turn_db w s name) as [-> | (row & -> & Hrow & Hadd & _)].
    + by exists extra.
    + exists (row :: extra). simpl. rewrite <- app_assoc. split; [done |].
      constructor; [by rewrite Hrow | done].
Qed.

(** No two records of the table get the same filename. *)
Lemma turn_NoDup (w : world) (s : state) (name : string) :
  NoDup (filename <$> visible (db s)) →
  NoDup (filename <$> visible (db (turn w s name))).
Proof.
  intros Hnd. destruct (turn_db w s name) as [-> | (row & -> & Hrow & _ & Hnew)];
    [done |].
  unfold known, visible in *. simpl. rewrite app_assoc, fmap_app. simpl.
  apply NoDup_app. split; [done |]. split.
  - intros x Hx ->%list_elem_of_singleton. apply Hnew. by rewrite <- Hrow.
  - apply NoDup_singleton.
Qed.

Lemma turns_NoDup (w : world) (names : list string) (s : state) :
  NoDup (filename <$> visible (db s)) →
  NoDup (filename <$> visible (db (foldl (turn w) s names))).
Proof.
  revert s. induction names as [|name names IH]; intros s Hnd; simpl; [done |].
  by apply IH, turn_NoDup.
Qed.

(** *** A second run over the same directory *)






(** *** The claims about ingestion *)





End Ingestion.

Section IngestionExamples.
Import Py Spec Models App.


(** The four outcomes on the example directory: a new file, a name that
    does not parse, a file that cannot be read, and a file that is known. *)
Example turn_examples :
  let s := foldl (turn shelf) (start [])
             ["Pandora1s2_CF_v3d20230101.txt"; "notes.txt";
              "Pandora9s9_CF_v1d20200101.txt"; "Pandora1s2_CF_v3d20230101.txt"] in
  (added s, skipped s, errors s, error_messages s)
  = (1, 1, 1,
     ["Error processing file Pandora9s9_CF_v1d20200101.txt: [Errno 13] Permission denied"]).
Proof. by vm_compute. Qed.



End IngestionExamples.

(** ** Further properties of the content extractor *)

Section ExtractorFurther.
Import Py Spec App.

Lemma lstrip_suffix (s : string) : ∃ l, s = l +:+ lstrip s.
Proof.
  induction s as [|c s [l IH]]; [by exists "" |]. simpl.
  destruct (isspace c); [| by exists ""].
  exists (String c l). by rewrite str_app_cons, <- IH.
Qed.

Lemma rstrip_prefix (s : string) : ∃ r, s = rstrip s +:+ r.
Proof.
  induction s as [|c s [r IH]]; [by exists "" |]. simpl.
  destruct (rstrip s) as [|x t] eqn:Hr.
  - rewrite str_app_nil_l in IH. subst r. destruct (isspace c).
    + by exists (String c s).
    + by exists s.
  - exists r. by rewrite str_app_cons, <- IH.
Qed.

(** What [strip] gives is a piece of its argument. *)
Lemma strip_piece (s : string) : ∃ l r, s = l +:+ strip s +:+ r.
Proof.
  destruct (lstrip_suffix s) as [l Hl]. destruct (rstrip_prefix (lstrip s)) as [r Hr].
  exists l, r. unfold strip. by rewrite <- Hr.
Qed.

Lemma lstrip_fixed (s : string) :
  match s with String c _ => isspace c = false | EmptyString => True end →
  lstrip s = s.
Proof. destruct s as [|c s]; simpl; [done |]. by intros ->. Qed.

Lemma rstrip_idempotent (s : string) : rstrip (rstrip s) = rstrip s.
Proof.
  induction s as [|c s IH]; [done |]. simpl.
  destruct (rstrip s) as [|x t] eqn:Hr.
  - destruct (isspace c) eqn:Hc; [done |]. simpl. by rewrite Hc.
  - simpl in *. by rewrite IH.
Qed.

Lemma rstrip_keeps_head (s : string) :
  match s with String c _ => isspace c = false | EmptyString => True end →
  match rstrip s with String c _ => isspace c = false | EmptyString => True end.
Proof.
  destruct s as [|c s]; simpl; [done |]. intros Hc.
  destruct (rstrip s); [by rewrite Hc | done].
Qed.

Lemma lstrip_head (s : string) :
  match lstrip s with String c _ => isspace c = false | EmptyString => True end.
Proof.
  induction s as [|c s IH]; simpl; [done |].
  by destruct (isspace c) eqn:Hc.
Qed.

Lemma strip_idempotent (s : string) : strip (strip s) = strip s.
Proof.
  unfold strip at 1.
  rewrite (lstrip_fixed (strip s)) by apply rstrip_keeps_head, lstrip_head.
  apply rstrip_idempotent.
Qed.

Lemma contains_piece (sep s l r : string) :
  contains sep s = true → contains sep (l +:+ s +:+ r) = true.
Proof.
  intros (b & a & ->)%contains_spec. apply contains_spec.
  exists (l +:+ b), (a +:+ r). by rewrite !str_app_assoc.
Qed.

Lemma one_line_piece (s l r : string) : one_line (l +:+ s +:+ r) → one_line s.
Proof.
  unfold one_line. rewrite !all_chars_app.
  by intros [_ [? _]%andb_true_iff]%andb_true_iff.
Qed.

(** The text before the first occurrence of the delimiter has none. *)
Lemma cut_before_free (sep s before after : string) :
  sep ≠ "" → cut sep s = Some (before, after) → contains sep before = false.
Proof.
  intros Hsep [Heq Hmin]%cut_spec.
  destruct (contains sep before) eqn:Hc; [| done].
  apply contains_spec in Hc as (b & a & ->).
  specialize (Hmin b (a +:+ sep +:+ after)).
  rewrite !str_app_assoc in Heq. specialize (Hmin Heq).
  rewrite !str_length_app in Hmin. destruct sep; [done |]. simpl in Hmin. lia.
Qed.

Lemma splitlines_cons (c : ascii) (s : string) :
  splitlines (String c s)
  = if islinebreak c then
      match s with
      | String c' s'' =>
          if ascii_eqb c "013" && ascii_eqb c' "010"
          then EmptyString :: splitlines s''
          else EmptyString :: splitlines s
      | EmptyString => [EmptyString]
      end
    else
      match splitlines s with
      | [] => [String c EmptyString]
      | l :: ls => String c l :: ls
      end.
Proof. done. Qed.

Lemma splitlines_LF (s : string) :
  splitlines (String "010" s) = "" :: splitlines s.
Proof. by destruct s. Qed.

(** No line of [splitlines] has a line break in it. *)
Lemma splitlines_one_line (s line : string) : line ∈ splitlines s → one_line line.
Proof.
  revert line. induction s as [|c s IH]; intros line.
  - by intros ?%elem_of_nil.
  - rewrite splitlines_cons. destruct (islinebreak c) eqn:Hc.
    + destruct s as [|c' s'']; [by intros ->%list_elem_of_singleton |].
      destruct (ascii_eqb c "013" && ascii_eqb c' "010") eqn:Hcrlf.
      * apply andb_true_iff in Hcrlf as [_ ->%ascii_eqb_true].
        intros [-> | Hin]%elem_of_cons; [done |]. apply IH.
        rewrite (splitlines_LF s''). by apply list_elem_of_further.
      * intros [-> | Hin]%elem_of_cons; [done | by apply IH].
    + destruct (splitlines s) as [|l ls].
      * intros ->%list_elem_of_singleton. unfold one_line. simpl. by rewrite Hc.
      * intros [-> | Hin]%elem_of_cons.
        -- unfold one_line. simpl. rewrite Hc. simpl.
           apply (IH l). apply list_elem_of_here.
        -- apply IH. by apply list_elem_of_further.
Qed.

(** X1: every key and every value of the extracted mapping is trimmed and
    has no line break in it, and no key has the delimiter in it. *)
Theorem extracted_entries_are_clean (text k v : string) :
  extract_file_details text !! k = Some v →
  strip k = k ∧ strip v = v ∧ contains "->" k = false ∧ one_line k ∧ one_line v.
Proof.
  intros (l1 & line & l2 & Hlines & Hentry & _)%extract_lines_last_entry.
  apply entry_cut in Hentry as (b & a & Hcut & -> & ->).
  assert (one_line line) as Hline.
  { apply (splitlines_one_line text). rewrite Hlines. apply elem_of_app. right.
    apply list_elem_of_here. }
  pose proof (proj1 (cut_spec _ _ _ _) Hcut) as [Heq _]. subst line.
  assert (one_line b ∧ one_line a) as [Hb Ha].
  { unfold one_line in *. rewrite !all_chars_app in Hline.
    apply andb_true_iff in Hline as [? [_ ?]%andb_true_iff]. done. }
  destruct (strip_piece b) as (lb & rb & Hpb). destruct (strip_piece a) as (la & ra & Hpa).
  split; [apply strip_idempotent |]. split; [apply strip_idempotent |].
  split; [| split].
  - destruct (contains "->" (strip b)) eqn:Hc; [| done].
    apply (contains_piece _ _ lb rb) in Hc. rewrite <- Hpb in Hc.
    by rewrite (cut_before_free "->" _ b a ltac:(done) Hcut) in Hc.
  - apply (one_line_piece _ lb rb). by rewrite <- Hpb.
  - apply (one_line_piece _ la ra). by rewrite <- Hpa.
Qed.

Lemma extract_line_union (data : dict) (line : string) :
  extract_line data line = extract_line ∅ line ∪ data.
Proof.
  rewrite !extract_line_cut. destruct (cut "->" line) as [[b a]|].
  - by rewrite insert_union_singleton_l, insert_empty.
  - by rewrite (left_id_L ∅ (∪)).
Qed.

Lemma extract_lines_union (lines : list string) (data : dict) :
  foldl extract_line data lines = foldl extract_line ∅ lines ∪ data.
Proof.
  revert data. induction lines as [|x lines IH]; intros data; simpl.
  - by rewrite (left_id_L ∅ (∪)).
  - rewrite (IH (extract_line data x)), (IH (extract_line ∅ x)).
    by rewrite (extract_line_union data x), (assoc_L (∪)).
Qed.

Lemma splitlines_nil (s : string) : splitlines s = [] → s = "".
Proof.
  destruct s as [|c s]; [done |]. rewrite splitlines_cons.
  destruct (islinebreak c).
  - destruct s as [|c' s'']; [done |]. by destruct (_ && _).
  - by destruct (splitlines s).
Qed.

(** The lines of two texts put together with a line feed: the lines of
    the first, the lines of the second, and at most an empty line between
    them. *)
Lemma splitlines_joined (t1 t2 : string) :
  ∃ pad, (pad = [] ∨ pad = [""]) ∧
         splitlines (t1 +:+ LF +:+ t2) = splitlines t1 ++ pad ++ splitlines t2.
Proof.
  induction t1 as [|c t1 IH].
  - exists [""]. split; [by right |]. apply splitlines_LF.
  - rewrite str_app_cons, !splitlines_cons. destruct (islinebreak c) eqn:Hc.
    + destruct t1 as [|c' t1'].
      * rewrite str_app_nil_l. unfold LF. rewrite str_app_cons, str_app_nil_l.
        destruct (ascii_eqb c "013" && ascii_eqb "010" "010").
        -- exists []. by split; [left |].
        -- exists [""]. split; [by right |]. simpl. f_equal. apply splitlines_LF.
      * rewrite str_app_cons.
        destruct (ascii_eqb c "013" && ascii_eqb c' "010") eqn:Hcrlf.
        -- apply andb_true_iff in Hcrlf as [_ ->%ascii_eqb_true].
           destruct IH as (pad & Hpad & IH).
           rewrite str_app_cons, !splitlines_LF in IH. injection IH as IH.
           exists pad. split; [done |]. by rewrite IH.
        -- destruct IH as (pad & Hpad & IH). rewrite str_app_cons in IH.
           exists pad. split; [done |]. by rewrite IH.
    + destruct (splitlines t1) as [|l ls] eqn:Hl.
      * apply splitlines_nil in Hl as ->. rewrite str_app_nil_l. unfold LF.
        rewrite str_app_cons, str_app_nil_l, splitlines_LF.
        exists []. by split; [left |].
      * destruct IH as (pad & Hpad & ->). exists pad. by split.
Qed.

(** X2: the mapping of two texts put together with a line feed is the
    mapping of the first overwritten by the mapping of the second. *)
Theorem extract_file_details_joined (t1 t2 : string) :
  extract_file_details (t1 +:+ LF +:+ t2)
  = extract_file_details t2 ∪ extract_file_details t1.
Proof.
  unfold extract_file_details.
  destruct (splitlines_joined t1 t2) as (pad & Hpad & ->).
  rewrite !foldl_app, (extract_lines_union (splitlines t2)). f_equal.
  by destruct Hpad as [-> | ->].
Qed.

End ExtractorFurther.

Section ExtractorFurtherExamples.
Import Py Spec App.

Lemma extracted_entries_witness :
  strip "a b" = "a b" ∧ strip "1 -> 2" = "1 -> 2" ∧ contains "->" "a b" = false ∧
  one_line "a b" ∧ one_line "1 -> 2".
Proof.
  apply (extracted_entries_are_clean ("  a b ->  1 -> 2 " +:+ LF +:+ "x")).
  by vm_compute.
Defined.

End ExtractorFurtherExamples.

(** ** Further properties of the ingestion *)

Section IngestionFurther.
Import Py Spec Models App.
Context `{Bson}.

Lemma parse_filename_shape (name : string) (t : list value) :
  parse_filename name = Some t →
  ∃ a b c d, t = [Str a; Str b; Str c; Str d] ∧
             digits a ∧ digits b ∧ digits c ∧ digits8 d.
Proof.
  intros (a & b & c & d & rest & ? & ? & ? & ? & _ & ->)%parse_filename_Some.
  by exists a, b, c, d.
Qed.

Lemma new_row_content (name : string) (a b c d : value) (text : string)
    (row : CalibrationData) :
  new_row name a b c d text = Return row →
  ∃ v bl, int c = Return v ∧ dumps (extract_file_details text) = Return bl ∧
          row = {| filename := name; pandora_id := a; spectrometer_id := b;
                   version := v; validity_date := d; content := Some bl |}.
Proof.
  unfold new_row. destruct (int c) as [v | e]; simpl; [| done].
  unfold set_content. destruct (dumps _) as [bl | e]; [| done].
  intros [= <-]. by exists v, bl.
Qed.

(** X3: whatever the parser gives is a tuple of four strings of digits,
    the last of eight; so unpacking it into four names cannot fail and
    [int(version)] cannot raise: building the record of a parsed filename
    raises only if encoding the content does. *)
Theorem parsed_tuple_never_fails_int (name : string) (t : list value) :
  parse_filename name = Some t →
  ∃ a b c d, t = [Str a; Str b; Str c; Str d] ∧
             digits a ∧ digits b ∧ digits c ∧ digits8 d ∧
             int (Str c) = Return (decimal c) ∧
             ∀ text e, new_row name (Str a) (Str b) (Str c) (Str d) text = Raise e →
                       dumps (extract_file_details text) = Raise e.
Proof.
  intros (a & b & c & d & -> & Ha & Hb & Hc & Hd)%parse_filename_shape.
  exists a, b, c, d. repeat (split; [done |]).
  split; [by apply int_digits_string |].
  intros text e. unfold new_row. rewrite (int_digits_string c Hc). simpl.
  unfold set_content. destruct (dumps _); [done | by intros [= ->]].
Qed.

(** *** Counting *)

Lemma turn_ignored (w : world) (s : state) (name : string) :
  candidate name = false → turn w s name = s.
Proof.
  unfold candidate, turn. destruct (endswith name ".txt"); simpl; [| done].
  destruct (parse_filename name) as [t|]; [| done].
  rewrite bool_decide_eq_false. intros Hno. destruct Hno. eauto.
Qed.

(** A turn over a candidate counts it once, as added, skipped or error. *)
Lemma turn_counts (w : world) (s : state) (name : string) :
  added (turn w s name) + skipped (turn w s name) + errors (turn w s name)
  = added s + skipped s + errors s + (if candidate name then 1 else 0).
Proof.
  destruct (candidate name) eqn:Hcand; [| rewrite turn_ignored by done; lia].
  unfold candidate in Hcand. apply andb_true_iff in Hcand as [Htxt Hp].
  apply bool_decide_eq_true in Hp as [t Hp].
  destruct (parse_filename_shape name t Hp) as (a & b & c & d & -> & _).
  unfold turn. rewrite Htxt, Hp. simpl.
  destruct (read w _); [| simpl; lia].
  destruct (filter_first w (db s) name) as [[r|] | e]; simpl; try lia.
  destruct (new_row _ _ _ _ _ _); simpl; lia.
Qed.

Lemma turns_counts (w : world) (names : list string) (s : state) :
  let s' := foldl (turn w) s names in
  added s' + skipped s' + errors s'
  = added s + skipped s + errors s + length (filter (λ n, candidate n = true) names).
Proof.
  revert s. induction names as [|name names IH]; intros s; simpl; [lia |].
  specialize (IH (turn w s name)). simpl in IH. rewrite IH, turn_counts.
  rewrite filter_cons. destruct (candidate name) eqn:Hc.
  - rewrite decide_True by done. simpl. lia.
  - rewrite decide_False by done. lia.
Qed.

(** One message for every error, one pending record for every file added. *)
Lemma turn_lengths (w : world) (s : state) (name : string) :
  errors s = length (error_messages s) ∧ added s = length (pending (db s)) →
  errors (turn w s name) = length (error_messages (turn w s name)) ∧
  added (turn w s name) = length (pending (db (turn w s name))).
Proof.
  intros [He Ha]. unfold turn. destruct (endswith name ".txt"); simpl; [| done].
  assert (∀ e, errors (count_error name e s) = length (error_messages (count_error name e s)) ∧
               added (count_error name e s) = length (pending (db (count_error name e s))))
    as Herr.
  { intros e. simpl. rewrite length_app. simpl. lia. }
  destruct (parse_filename name) as [[|a [|b [|c [|d [|x t]]]]]|]; try done.
  destruct (read w _); [| done].
  destruct (filter_first w (db s) name) as [[r|] | e]; try done.
  destruct (new_row _ _ _ _ _ _); [| done].
  simpl. rewrite length_app. simpl. lia.
Qed.

Lemma turns_lengths (w : world) (names : list string) (s : state) :
  errors s = length (error_messages s) ∧ added s = length (pending (db s)) →
  let s' := foldl (turn w) s names in
  errors s' = length (error_messages s') ∧ added s' = length (pending (db s')).
Proof.
  revert s. induction names as [|name names IH]; intros s Hs; simpl; [done |].
  by apply IH, turn_lengths.
Qed.

(** *** The records a run adds *)

Lemma known_grows (w : world) (s : state) (name n : string) :
  known (db s) n → known (db (turn w s name)) n.
Proof.
  destruct (turn_db w s name) as [-> | (row & -> & _)]; [done |].
  unfold known, visible. simpl. rewrite app_assoc, (fmap_app _ (_ ++ _)).
  intros ?. apply elem_of_app. by left.
Qed.

Lemma turn_row (w : world) (s : state) (name : string) :
  db (turn w s name) = db s ∨
  ∃ row, db (turn w s name)
         = {| committed := committed (db s); pending := pending (db s) ++ [row] |} ∧
         filename row = name ∧ candidate name = true ∧ is_Some (content row) ∧
         ¬ known (db s) name.
Proof.
  destruct (candidate name) eqn:Hcand; [| left; by rewrite turn_ignored].
  unfold turn. destruct (endswith name ".txt") eqn:Htxt; simpl; [| by left].
  destruct (parse_filename name) as [[|a [|b [|c [|d [|x t]]]]]|] eqn:Hp;
    try by left.
  destruct (read w (path_join directory name)) as [text | e] eqn:Hr; [| by left].
  destruct (db_fault w (FilterFirst name)) as [e|] eqn:Hf.
  { unfold filter_first. rewrite Hf. by left. }
  destruct (filter_first_known w (db s) name Hf) as [[_ [r ->]] | [Hnew ->]];
    [by left |].
  destruct (new_row name a b c d text) as [row | e] eqn:Hrow; [| by left].
  right. exists row. split; [done |].
  apply new_row_content in Hrow as (v & bl & _ & _ & ->). simpl. eauto.
Qed.

Lemma turns_rows (w : world) (names : list string) (s : state) :
  ∃ extra,
    db (foldl (turn w) s names)
    = {| committed := committed (db s); pending := pending (db s) ++ extra |} ∧
    Forall (fresh names (db s)) extra.
Proof.
  revert s. induction names as [|name names IH]; intros s; simpl.
  - exists []. rewrite app_nil_r. by destruct (db s).
  - destruct (IH (turn w s name)) as (extra & -> & Hextra).
    assert (Forall (fresh (name :: names) (db s)) extra) as Hextra'.
    { eapply Forall_impl; [exact Hextra |]. intros r (Hin & ? & ? & Hnew).
      repeat split; try done; [by apply list_elem_of_further |].
      intros Hk. by apply Hnew, known_grows. }
    destruct (turn_row w s name) as [-> | (row & -> & Hrow & Hcand & Hcontent & Hnew)].
    + by exists extra.
    + exists (row :: extra). simpl. rewrite <- app_assoc. split; [done |].
      constructor; [| done]. rewrite <- Hrow in Hcand, Hnew.
      repeat split; try done. rewrite Hrow. apply list_elem_of_here.
Qed.

(** *** The request as a whole *)

Lemma process_files_cases (w : world) (rows : list CalibrationData) :
  process_files w rows
  = if path_exists w then
      match listdir w with
      | Raise e => (failure e, rows)
      | Return names =>
          match db_fault w Commit with
          | Some e => (failure e, rows)
          | None =>
              let s := foldl (turn w) (start rows) names in
              ((Processed (added s) (skipped s) (errors s) (error_messages s), 200%Z),
               visible (db s))
          end
      end
    else (failure (FileNotFoundError "Directory ./calibration_files does not exist"),
          rows).
Proof.
  destruct (path_exists w) eqn:Hdir.
  - destruct (listdir w) as [names | e] eqn:Hlist.
    + destruct (db_fault w Commit) as [e|] eqn:Hcommit;
        [| by apply process_files_run].
      unfold process_files, process_files_view, try_catch, process_files_try.
      rewrite Hdir, Hlist. unfold mbind, M_bind, mret, M_ret, lift. simpl.
      rewrite for_each_turns. unfold session_commit. rewrite Hcommit. simpl.
      destruct (turns_db w names (start rows)) as (extra & Hdb & _).
      unfold start in Hdb. simpl in Hdb.
      unfold failure. destruct (exn_class_SQLAlchemyError e); simpl; by rewrite Hdb.
    + unfold process_files, process_files_view, try_catch, process_files_try.
      rewrite Hdir, Hlist. unfold mbind, M_bind, mret, M_ret, lift. simpl.
      unfold failure. by destruct (exn_class_SQLAlchemyError e).
  - unfold process_files, process_files_view, try_catch, process_files_try.
    by rewrite Hdir.
Qed.

(** X4: what a request to [/api/process_files] comes to, case by case: a
    missing directory, a listing that fails and a commit that fails are
    answered with status 500 and leave the table as it was, whatever the
    loop counted; otherwise the answer carries the counts of the loop and
    the table is the one the loop built. *)
Theorem process_files_outcomes (w : world) (rows : list CalibrationData) :
  process_files w rows
  = if path_exists w then
      match listdir w with
      | Raise e => (failure e, rows)
      | Return names =>
          match db_fault w Commit with
          | Some e => (failure e, rows)
          | None =>
              let s := foldl (turn w) (start rows) names in
              ((Processed (added s) (skipped s) (errors s) (error_messages s), 200%Z),
               visible (db s))
          end
      end
    else (failure (FileNotFoundError "Directory ./calibration_files does not exist"),
          rows).
Proof. apply process_files_cases. Qed.

Lemma process_files_table (w : world) (rows : list CalibrationData) :
  (process_files w rows).2 = rows ∨
  ∃ names, listdir w = Return names ∧
           (process_files w rows).1.2 = 200%Z ∧
           (process_files w rows).2 = visible (db (foldl (turn w) (start rows) names)).
Proof.
  rewrite process_files_cases. destruct (path_exists w); [| by left].
  destruct (listdir w) as [names | e]; [| by left].
  destruct (db_fault w Commit); [by left |]. right. by exists names.
Qed.

(** X5: a request to [/api/process_files] is answered with status 200 or
    with status 500, and with 500 the table is left as it was; in either
    case the records the table had are still there, unchanged and in
    their places, and no two records share a filename if none did. *)
Theorem process_files_all_or_nothing (w : world) (rows : list CalibrationData) :
  ((process_files w rows).1.2 = 200%Z ∨
   ((process_files w rows).1.2 = 500%Z ∧ (process_files w rows).2 = rows)) ∧
  (∃ new, (process_files w rows).2 = rows ++ new) ∧
  (NoDup (filename <$> rows) → NoDup (filename <$> (process_files w rows).2)).
Proof.
  split; [| split].
  - rewrite process_files_cases. destruct (path_exists w); [| by right].
    destruct (listdir w) as [names | e]; [| by right].
    destruct (db_fault w Commit); [by right | by left].
  - destruct (process_files_table w rows) as [-> | (names & _ & _ & ->)].
    + exists []. by rewrite app_nil_r.
    + destruct (turns_db w names (start rows)) as (extra & -> & _). by exists extra.
  - intros Hnd. destruct (process_files_table w rows) as [-> | (names & _ & _ & ->)];
      [done |].
    apply turns_NoDup. simpl. by rewrite visible_committed.
Qed.

(** X6: when the request succeeds, the table is the old one followed by
    one new record for every file counted as added; each new record is of
    a [.txt] entry of the listing whose name parses, has its content set,
    and has a filename the table did not have; and the answer carries one
    message for every error. *)
Theorem process_files_new_records (w : world) (rows rows' : list CalibrationData)
    (n_added n_skipped n_errors : nat) (messages : list string) :
  process_files w rows
  = ((Processed n_added n_skipped n_errors messages, 200%Z), rows') →
  ∃ names new,
    listdir w = Return names ∧ rows' = rows ++ new ∧
    length new = n_added ∧ length messages = n_errors ∧
    Forall (fresh names {| committed := rows; pending := [] |}) new.
Proof.
  intros Hrun.
  destruct (process_files_succeeds _ _ _ _ _ _ _ Hrun) as (names & Hdir & Hlist & Hcommit).
  rewrite (process_files_run w rows names Hdir Hlist Hcommit) in Hrun.
  injection Hrun as <- <- <- <- <-.
  destruct (turns_rows w names (start rows)) as (new & Hdb & Hnew).
  destruct (turns_lengths w names (start rows)) as [He Ha]; [done |].
  exists names, new. rewrite Hdb in *. simpl in *. by rewrite He, Ha.
Qed.

(** X7: when the request succeeds, every [.txt] entry of the listing whose
    name parses is counted exactly once, as added, skipped or error, and
    no other entry is counted. *)
Theorem process_files_counts_candidates (w : world) (rows rows' : list CalibrationData)
    (n_added n_skipped n_errors : nat) (messages : list string) :
  process_files w rows
  = ((Processed n_added n_skipped n_errors messages, 200%Z), rows') →
  ∃ names, listdir w = Return names ∧
           n_added + n_skipped + n_errors
           = length (filter (λ n, candidate n = true) names).
Proof.
  intros Hrun.
  destruct (process_files_succeeds _ _ _ _ _ _ _ Hrun) as (names & Hdir & Hlist & Hcommit).
  rewrite (process_files_run w rows names Hdir Hlist Hcommit) in Hrun.
  injection Hrun as <- <- <- <- <-.
  exists names. split; [done |]. by rewrite (turns_counts w names (start rows)).
Qed.

Lemma turns_candidates (w : world) (names : list string) (s : state) :
  foldl (turn w) s (filter (λ n, candidate n = true) names) = foldl (turn w) s names.
Proof.
  revert s. induction names as [|name names IH]; intros s; [done |].
  rewrite filter_cons. destruct (candidate name) eqn:Hc.
  - rewrite decide_True by done. simpl. apply IH.
  - rewrite decide_False by done. simpl. by rewrite (turn_ignored w s name Hc).
Qed.

(** X8: entries that do not end in [.txt] and entries whose names do not
    parse are of no account: with them taken out of the listing, the
    answer and the table are the same. *)
Theorem process_files_ignores_other_entries (w : world) (rows : list CalibrationData)
    (names : list string) :
  listdir w = Return names →
  process_files (with_listing w (filter (λ n, candidate n = true) names)) rows
  = process_files w rows.
Proof.
  intros Hlist. rewrite !process_files_cases, Hlist. simpl.
  destruct (path_exists w); [| done]. destruct (db_fault w Commit); [done |].
  change (turn (with_listing w (filter (λ n, candidate n = true) names))) with (turn w).
  by rewrite turns_candidates.
Qed.

End IngestionFurther.

(** ** Further properties of the read endpoints *)

Section EndpointsFurther.
Import Py Spec Models App.
Context `{Bson}.

(** *** [/api/get_content] *)



(** *** The statuses of the answers *)

Lemma dispatch_handler_status (e : exn) :
  (∀ code description, e = HTTPException code description → code = 500%Z) →
  (dispatch (Raise e)).2 = 500%Z.
Proof.
  intros Hcode. destruct e as [code description| | | | | | |]; try done.
  by rewrite (Hcode code description eq_refl).
Qed.

Lemma get_content_status (w : world) (rows : list CalibrationData)
    (arg : option string) :
  (get_content w rows arg).2 = 200%Z ∨ (get_content w rows arg).2 = 500%Z.
Proof.
  unfold get_content, get_content_view.
  assert (∀ e : exn,
            (dispatch
               (if negb has_BSONDecodeError
                then Raise (AttributeError "module 'bson' has no attribute 'errors'")
                else if exn_class_BSONDecodeError e
                then abort 500 "Error decoding content data"
                else if exn_class_SQLAlchemyError e
                then Return (ErrorDetails "Database error" (str_exn e), 500%Z)
                else Return (ErrorDetails "An unexpected error occurred" (str_exn e),
                             500%Z))).2 = 500%Z) as Hhandler.
  { intros e. destruct has_BSONDecodeError; simpl; [| done].
    destruct (exn_class_BSONDecodeError e); [done |].
    by destruct (exn_class_SQLAlchemyError e). }
  destruct arg as [[|x name]|]; try (right; cbn [mbind except_bind try_except abort]; apply Hhandler).
  destruct (filter_first w {| committed := rows; pending := [] |} (String x name))
    as [[r|] | e]; cbn [mbind except_bind try_except abort];
    try (right; cbn [mbind except_bind try_except abort]; apply Hhandler).
  destruct (Models.get_content r) as [c | e]; cbn [mbind except_bind try_except];
    [by left |].
  right. cbn [mbind except_bind try_except abort]. apply Hhandler.
Qed.

Lemma query_status (w : world) (rows : list CalibrationData)
    (request_json : except json) :
  (query_calibration_data w rows request_json).2 = 200%Z ∨
  (query_calibration_data w rows request_json).2 = 500%Z.
Proof.
  unfold query_calibration_data, query_calibration_data_view.
  assert (∀ e : exn,
            (dispatch
               (if exn_class_SQLAlchemyError e
                then Return (ErrorDetails "Database error" (str_exn e), 500%Z)
                else Return (ErrorDetails "An unexpected error occurred" (str_exn e),
                             500%Z))).2 = 500%Z) as Hhandler
    by (intros e; by destruct (exn_class_SQLAlchemyError e)).
  destruct request_json as [keys | e]; cbn [mbind except_bind try_except];
    [| right; cbn [mbind except_bind try_except abort]; apply Hhandler].
  destruct (falsy keys || negb (isinstance_list keys));
    [right; cbn [mbind except_bind try_except abort]; apply Hhandler |].
  destruct keys as [| | | |keys|]; try (right; cbn [mbind except_bind try_except abort]; apply Hhandler).
  destruct (query_all w {| committed := rows; pending := [] |}) as [results | e];
    cbn [mbind except_bind try_except]; [| right; cbn [mbind except_bind try_except abort]; apply Hhandler].
  destruct (scan keys results []) as [response | e];
    cbn [mbind except_bind try_except]; [by left |].
  right. cbn [mbind except_bind try_except abort]. apply Hhandler.
Qed.

(** X10: no endpoint ever answers with a status other than 200 and 500,
    whatever the request, the table and the world: the error handlers
    registered for 400 and 404 answer none of them. *)
Theorem every_answer_is_200_or_500 (w : world) (rows : list CalibrationData) :
  ((process_files w rows).1.2 = 200%Z ∨ (process_files w rows).1.2 = 500%Z) ∧
  (∀ request_json,
     (query_calibration_data w rows request_json).2 = 200%Z ∨
     (query_calibration_data w rows request_json).2 = 500%Z) ∧
  ((health_check w rows).2 = 200%Z ∨ (health_check w rows).2 = 500%Z) ∧
  (∀ arg, (get_content w rows arg).2 = 200%Z ∨ (get_content w rows arg).2 = 500%Z) ∧
  (∀ fault, info_status (get_calibration_file_info fault rows) = 200%Z ∨
            info_status (get_calibration_file_info fault rows) = 500%Z).
Proof.
  split; [| split; [| split; [| split]]].
  - rewrite process_files_cases. destruct (path_exists w); [| by right].
    destruct (listdir w); [| by right]. destruct (db_fault w Commit); [by right | by left].
  - apply query_status.
  - unfold health_check, health_check_view, query_limit1.
    destruct (db_fault w Limit1); [by right | by left].
  - apply get_content_status.
  - intros [e|]; [| by left]. right.
    unfold get_calibration_file_info, get_calibration_file_info_view. simpl.
    by destruct (exn_class_SQLAlchemyError e).
Qed.

(** *** [/api/query] *)

Lemma comprehension_hashable (content : dict) (keys : list json) (acc : dict) :
  forallb hashable keys = true →
  comprehension content keys acc
  = comprehension content (JString <$> key_strings keys) acc.
Proof.
  revert acc. induction keys as [|key keys IH]; intros acc; simpl; [done |].
  intros [Hkey Hkeys]%andb_true_iff.
  destruct key as [| | |k| |]; simpl in *; try done; try by apply IH.
  destruct (content !! k); simpl; by apply IH.
Qed.

Lemma scan_hashable (keys : list json) (rows : list CalibrationData)
    (response : list (string * dict)) :
  forallb hashable keys = true →
  scan keys rows response = scan (JString <$> key_strings keys) rows response.
Proof.
  intros Hkeys. revert response.
  induction rows as [|r rows IH]; intros response; simpl; [done |].
  destruct (Models.get_content r) as [c | e]; simpl; [| done].
  rewrite (comprehension_hashable c keys ∅ Hkeys).
  destruct (comprehension c _ ∅) as [m | e]; simpl; [| done].
  by destruct (bool_decide (m ≠ ∅)).
Qed.

(** X11: in a non-empty list of keys none of which is a list or an
    object, only the strings count: numbers, booleans and nulls match no
    key of any content, and the answer is the one for the strings of the
    list, which is empty if there are none. *)
Theorem query_uses_the_string_keys (w : world) (rows : list CalibrationData)
    (keys : list json) (contents : list dict) :
  keys ≠ [] →
  forallb hashable keys = true →
  db_fault w All = None →
  Forall2 (λ r c, Models.get_content r = Return c) rows contents →
  query_calibration_data w rows (Return (JArray keys))
  = (Matches (filter_by_keys (key_strings keys) (zip (filename <$> rows) contents)),
     200%Z).
Proof.
  intros Hne Hkeys Hok Hdec.
  unfold query_calibration_data, query_calibration_data_view, query_all.
  destruct keys as [|key keys]; [done |].
  cbn [falsy isinstance_list negb orb mbind except_bind].
  rewrite Hok, visible_committed. cbn [mbind except_bind].
  rewrite (scan_hashable (key :: keys) rows [] Hkeys).
  by rewrite (scan_filter_by_keys (key_strings (key :: keys)) rows contents [] Hdec).
Qed.

Lemma comprehension_unhashable (content : dict) (keys : list json) (acc : dict) :
  forallb hashable keys = false →
  ∃ msg, comprehension content keys acc = Raise (TypeError msg).
Proof.
  revert acc. induction keys as [|key keys IH]; intros acc; simpl; [done |].
  intros Hkeys. apply andb_false_iff in Hkeys as [Hkey | Hkeys].
  - destruct key; try done; simpl; eauto.
  - destruct key as [| | |k| |]; simpl; eauto.
    destruct (content !! k); simpl; eauto.
Qed.

(** X12: a list or an object among the keys is noticed only when a record
    is looked at: against an empty table the answer is 200 with no match,
    and against a table whose first record decodes it is 500. *)
Theorem query_with_unhashable_key (w : world) (keys : list json) :
  forallb hashable keys = false →
  db_fault w All = None →
  query_calibration_data w [] (Return (JArray keys)) = (Matches [], 200%Z) ∧
  ∀ r rows c, Models.get_content r = Return c →
              ∃ msg, query_calibration_data w (r :: rows) (Return (JArray keys))
                     = (ErrorDetails "An unexpected error occurred" msg, 500%Z).
Proof.
  intros Hkeys Hok.
  assert (keys ≠ []) as Hne by (by intros ->).
  unfold query_calibration_data, query_calibration_data_view, query_all.
  destruct keys as [|key keys]; [done |].
  cbn [falsy isinstance_list negb orb mbind except_bind]. rewrite Hok.
  split; [done |]. intros r rows c Hc. rewrite visible_committed.
  cbn [mbind except_bind scan]. rewrite Hc. cbn [mbind except_bind].
  destruct (comprehension_unhashable c (key :: keys) ∅ Hkeys) as [msg ->].
  by exists msg.
Qed.

Lemma scan_raises (keys : list string) (before after : list CalibrationData)
    (contents : list dict) (r : CalibrationData) (e : exn)
    (response : list (string * dict)) :
  Forall2 (λ r c, Models.get_content r = Return c) before contents →
  Models.get_content r = Raise e →
  scan (JString <$> keys) (before ++ r :: after) response = Raise e.
Proof.
  intros Hdec He. revert response.
  induction Hdec as [|r' c before contents Hr _ IH]; intros response; simpl.
  - by rewrite He.
  - rewrite Hr. simpl.
    rewrite comprehension_restrict by (intros ? ?; by rewrite lookup_empty).
    simpl. by destruct (bool_decide _).
Qed.

(** X13: one record whose content does not decode fails the whole query:
    the answer is a 500 that carries the decoding error, without the
    matches of the records before it. *)
Theorem query_fails_on_an_undecodable_record (w : world)
    (before after : list CalibrationData) (contents : list dict)
    (r : CalibrationData) (e : exn) (keys : list string) :
  keys ≠ [] →
  db_fault w All = None →
  Forall2 (λ r c, Models.get_content r = Return c) before contents →
  Models.get_content r = Raise e →
  query_calibration_data w (before ++ r :: after) (Return (JArray (JString <$> keys)))
  = (ErrorDetails (if exn_class_SQLAlchemyError e then "Database error"
                   else "An unexpected error occurred") (str_exn e), 500%Z).
Proof.
  intros Hne Hok Hdec He.
  unfold query_calibration_data, query_calibration_data_view, query_all.
  destruct keys as [|k keys]; [done |].
  cbn [fmap list_fmap falsy isinstance_list negb orb mbind except_bind].
  rewrite Hok, visible_committed. cbn [mbind except_bind].
  pose proof (scan_raises (k :: keys) before after contents r e [] Hdec He) as Hscan.
  cbn [fmap list_fmap] in Hscan. rewrite Hscan. simpl.
  by destruct (exn_class_SQLAlchemyError e).
Qed.

(** *** [/api/calibration_files] *)

(** X14: [/api/calibration_files] answers, when the statement does not
    fail, with status 200, the filename and the instrument of every
    record in the order of the table, and their number; when it fails,
    with status 500 and the failure as details. *)
Theorem get_calibration_file_info_lists_the_table (fault : option exn)
    (rows : list CalibrationData) :
  get_calibration_file_info fault rows
  = match fault with
    | None =>
        inl (CalibrationFiles ((λ r, (filename r, pandora_id r)) <$> rows) (length rows),
             200%Z)
    | Some e =>
        inl (InfoError (if exn_class_SQLAlchemyError e then "Database error"
                        else "An unexpected error occurred") (str_exn e), 500%Z)
    end.
Proof.
  unfold get_calibration_file_info, get_calibration_file_info_view, query_entities.
  destruct fault as [e|]; simpl.
  - by destruct (exn_class_SQLAlchemyError e).
  - rewrite visible_committed, length_fmap, length_fmap.
    do 3 f_equal. rewrite <- list_fmap_compose. apply list_fmap_ext.
    by intros ? ? ?.
Qed.

End EndpointsFurther.

(** ** Ingestion and the read endpoints together *)

Section Composition.
Import Py Spec Models App.
Context `{Bson}.






(** X16: after a successful run [/api/calibration_files] lists what it
    listed before, then the records the run added, and the number it
    gives has grown by the number of files added. *)
Theorem listing_grows_by_added (w : world) (rows rows' : list CalibrationData)
    (n_added n_skipped n_errors : nat) (messages : list string) :
  process_files w rows
  = ((Processed n_added n_skipped n_errors messages, 200%Z), rows') →
  ∃ new,
    rows' = rows ++ new ∧ length new = n_added ∧
    get_calibration_file_info None rows'
    = inl (CalibrationFiles
             (((λ r, (filename r, pandora_id r)) <$> rows)
              ++ ((λ r, (filename r, pandora_id r)) <$> new))
             (length rows + n_added), 200%Z).
Proof.
  intros Hrun.
  destruct (process_files_succeeds _ _ _ _ _ _ _ Hrun) as (names & Hdir & Hlist & Hcommit).
  rewrite (process_files_run w rows names Hdir Hlist Hcommit) in Hrun.
  injection Hrun as <- <- <- <- <-.
  destruct (turns_rows w names (start rows)) as (new & Hdb & _).
  destruct (turns_lengths w names (start rows)) as [_ Ha]; [done |].
  rewrite Hdb in *. simpl in Ha. exists new. unfold visible. simpl.
  split; [done |]. split; [done |].
  unfold get_calibration_file_info, get_calibration_file_info_view, query_entities.
  simpl. rewrite visible_committed, !length_fmap, length_app, Ha.
  do 3 f_equal. rewrite <- list_fmap_compose, <- fmap_app. apply list_fmap_ext.
  by intros ? ? ?.
Qed.

End Composition.

(** ** The order of the directory listing *)

Section ListingOrder.
Import Py Spec Models App.
Context `{Bson}.

Lemma known_pending_free (s : state) (rows : list CalibrationData) (name : string) :
  committed (db s) = rows →
  (∀ r, r ∈ pending (db s) → filename r ≠ name) →
  known (db s) name ↔ known (db (start rows)) name.
Proof.
  intros Hc Hp. unfold known, visible. simpl. rewrite Hc, app_nil_r, fmap_app.
  rewrite elem_of_app. split; [| by left].
  intros [? | (r & Hr & Hin)%list_elem_of_fmap]; [done |].
  by destruct (Hp r Hin).
Qed.

(** An entry whose filename no pending record has is dealt with as if it
    were alone. *)
Lemma turn_independent (w : world) (rows : list CalibrationData) (s : state)
    (name : string) :
  committed (db s) = rows →
  (∀ r, r ∈ pending (db s) → filename r ≠ name) →
  added (turn w s name) = added s + added (alone w rows name) ∧
  skipped (turn w s name) = skipped s + skipped (alone w rows name) ∧
  errors (turn w s name) = errors s + errors (alone w rows name) ∧
  error_messages (turn w s name)
  = error_messages s ++ error_messages (alone w rows name) ∧
  committed (db (turn w s name)) = rows ∧
  pending (db (turn w s name)) = pending (db s) ++ pending (db (alone w rows name)).
Proof.
  intros Hc Hp. pose proof (known_pending_free s rows name Hc Hp) as Hknown.
  unfold alone.
  assert (added (start rows) = 0 ∧ skipped (start rows) = 0 ∧
          errors (start rows) = 0 ∧ error_messages (start rows) = [] ∧
          pending (db (start rows)) = []) as Hstart by done.
  revert Hknown Hstart. generalize (start rows) as s0.
  intros s0 Hknown (Ha0 & Hs0 & He0 & Hm0 & Hp0).
  assert (added s = added s + added s0 ∧ skipped s = skipped s + skipped s0 ∧
          errors s = errors s + errors s0 ∧
          error_messages s = error_messages s ++ error_messages s0 ∧
          committed (db s) = rows ∧
          pending (db s) = pending (db s) ++ pending (db s0)) as Hsame.
  { rewrite Ha0, Hs0, He0, Hm0, Hp0, !app_nil_r. repeat split; try lia; done. }
  assert (∀ e, added (count_error name e s) = added s + added (count_error name e s0) ∧
               skipped (count_error name e s) = skipped s + skipped (count_error name e s0) ∧
               errors (count_error name e s) = errors s + errors (count_error name e s0) ∧
               error_messages (count_error name e s)
               = error_messages s ++ error_messages (count_error name e s0) ∧
               committed (db (count_error name e s)) = rows ∧
               pending (db (count_error name e s))
               = pending (db s) ++ pending (db (count_error name e s0))) as Herr.
  { intros e. simpl. rewrite Ha0, Hs0, He0, Hm0, Hp0, !app_nil_r.
    repeat split; try lia; done. }
  unfold turn. destruct (endswith name ".txt"); cbn [negb]; [| done].
  destruct (parse_filename name) as [[|a [|b [|c [|d [|x t]]]]]|]; try done.
  destruct (read w (path_join directory name)) as [text | e]; [| done].
  destruct (db_fault w (FilterFirst name)) as [e|] eqn:Hf.
  { unfold filter_first. rewrite Hf. done. }
  destruct (filter_first_known w (db s) name Hf) as [[Hk [r ->]] | [Hnew ->]];
    destruct (filter_first_known w (db s0) name Hf) as [[Hk0 [r0 ->]] | [Hnew0 ->]];
    try (by destruct Hnew0; apply Hknown); try (by destruct Hnew; apply Hknown).
  - simpl. rewrite Ha0, Hs0, He0, Hm0, Hp0, !app_nil_r. repeat split; try lia; done.
  - destruct (new_row name a b c d text) as [row | e]; [| done].
    simpl. rewrite Ha0, Hs0, He0, Hm0, Hp0, !app_nil_r. repeat split; try lia; done.
Qed.

Lemma alone_pending (w : world) (rows : list CalibrationData) (name : string)
    (r : CalibrationData) :
  r ∈ pending (db (alone w rows name)) → filename r = name.
Proof.
  unfold alone. destruct (turn_db w (start rows) name) as [-> | (row & -> & Hrow & _)];
    simpl; [by intros ?%elem_of_nil |].
  by intros ->%list_elem_of_singleton.
Qed.

Lemma turns_independent (w : world) (rows : list CalibrationData)
    (names : list string) (s : state) :
  NoDup names →
  committed (db s) = rows →
  (∀ r, r ∈ pending (db s) → filename r ∉ names) →
  let s' := foldl (turn w) s names in
  added s' = added s + sum_list_with (λ n, added (alone w rows n)) names ∧
  skipped s' = skipped s + sum_list_with (λ n, skipped (alone w rows n)) names ∧
  errors s' = errors s + sum_list_with (λ n, errors (alone w rows n)) names ∧
  error_messages s'
  = error_messages s ++ (names ≫= λ n, error_messages (alone w rows n)) ∧
  committed (db s') = rows ∧
  pending (db s') = pending (db s) ++ (names ≫= λ n, pending (db (alone w rows n))).
Proof.
  intros Hnd. revert s. induction Hnd as [|name names Hnotin Hnd IH]; intros s Hc Hp.
  - simpl. rewrite !app_nil_r. repeat split; try lia; done.
  - simpl.
    destruct (turn_independent w rows s name Hc) as (Ha & Hs & He & Hm & Hc' & Hp').
    { intros r Hr Heq. apply (Hp r Hr). rewrite Heq. apply list_elem_of_here. }
    destruct (IH (turn w s name) Hc') as (Ha2 & Hs2 & He2 & Hm2 & Hc2 & Hp2).
    { intros r. rewrite Hp'. intros [Hr | Hr]%elem_of_app.
      - intros Hin. apply (Hp r Hr). by apply list_elem_of_further.
      - by rewrite (alone_pending w rows name r Hr). }
    simpl in *. rewrite Ha2, Hs2, He2, Hm2, Hp2, Ha, Hs, He, Hm, Hp'.
    rewrite <- !app_assoc. repeat split; try lia; done.
Qed.

(** X17: the order in which the directory lists its entries does not
    matter for what a successful run counts or for which records it adds:
    with the names of the listing in another order, the request succeeds
    with the same three counts, the same messages in some order, and a
    table of the same records in some order. *)
Theorem process_files_order_of_listing (w : world) (rows rows' : list CalibrationData)
    (names names' : list string) (n_added n_skipped n_errors : nat)
    (messages : list string) :
  listdir w = Return names → NoDup names → names ≡ₚ names' →
  process_files w rows
  = ((Processed n_added n_skipped n_errors messages, 200%Z), rows') →
  ∃ messages' rows'',
    process_files (with_listing w names') rows
    = ((Processed n_added n_skipped n_errors messages', 200%Z), rows'') ∧
    messages' ≡ₚ messages ∧ rows'' ≡ₚ rows'.
Proof.
  intros Hlist Hnd Hperm Hrun.
  destruct (process_files_succeeds _ _ _ _ _ _ _ Hrun) as (names0 & Hdir & Hlist' & Hcommit).
  rewrite (process_files_run w rows names Hdir Hlist Hcommit) in Hrun.
  injection Hrun as <- <- <- <- <-.
  rewrite (process_files_run (with_listing w names') rows names' Hdir eq_refl Hcommit).
  change (turn (with_listing w names')) with (turn w).
  assert (NoDup names') as Hnd' by (by rewrite <- Hperm).
  destruct (turns_independent w rows names (start rows) Hnd eq_refl)
    as (Ha & Hs & He & Hm & Hc & Hp); [by intros r ?%elem_of_nil |].
  destruct (turns_independent w rows names' (start rows) Hnd' eq_refl)
    as (Ha' & Hs' & He' & Hm' & Hc' & Hp'); [by intros r ?%elem_of_nil |].
  simpl in Ha, Hs, He, Hm, Hp, Ha', Hs', He', Hm', Hp'.
  exists (error_messages (foldl (turn w) (start rows) names')),
         (visible (db (foldl (turn w) (start rows) names'))).
  split; [| split].
  - rewrite Ha', Hs', He', Ha, Hs, He.
    by rewrite !(sum_list_with_Permutation_proper _ _ _ Hperm).
  - rewrite Hm', Hm. apply bind_Permutation. by symmetry.
  - unfold visible. rewrite Hc', Hc, Hp', Hp. apply Permutation_app_head.
    apply bind_Permutation. by symmetry.
Qed.

End ListingOrder.

(** ** The further properties on the example worlds *)

Section FurtherExamples.
Import Py Spec Models App.

Lemma parsed_tuple_witness :
  ∃ a b c d,
    [Str "1"; Str "2"; Str "3"; Str "20230101"] = [Str a; Str b; Str c; Str d] ∧
    digits a ∧ digits b ∧ digits c ∧ digits8 d ∧
    int (Str c) = Return (decimal c) ∧
    ∀ text e,
      new_row "Pandora1s2_CF_v3d20230101.txt.txt" (Str a) (Str b) (Str c) (Str d) text
      = Raise e →
      dumps (extract_file_details text) = Raise e.
Proof.
  apply (parsed_tuple_never_fails_int "Pandora1s2_CF_v3d20230101.txt.txt").
  by vm_compute.
Defined.


Lemma process_files_new_records_witness :
  ∃ names new,
    listdir shelf = Return names ∧ (process_files shelf []).2 = [] ++ new ∧
    length new = 2 ∧
    length ["Error processing file Pandora9s9_CF_v1d20200101.txt: [Errno 13] Permission denied"]
    = 1 ∧
    Forall (fresh names {| committed := []; pending := [] |}) new.
Proof.
  apply (process_files_new_records shelf [] (process_files shelf []).2 2 0 1).
  by vm_compute.
Defined.

Lemma process_files_counts_witness :
  ∃ names, listdir shelf = Return names ∧
           1 + 1 + 1 = length (filter (λ n, candidate n = true) names).
Proof.
  apply (process_files_counts_candidates shelf [sample_row]
           (process_files shelf [sample_row]).2 1 1 1
           ["Error processing file Pandora9s9_CF_v1d20200101.txt: [Errno 13] Permission denied"]).
  by vm_compute.
Defined.

Lemma process_files_ignores_witness :
  process_files
    (with_listing shelf
       (filter (λ n, candidate n = true)
          ["Pandora1s2_CF_v3d20230101.txt"; "notes.txt";
           "Pandora7s1_CF_v2d20240229.txt"; "README.md";
           "Pandora9s9_CF_v1d20200101.txt"])) [sample_row]
  = process_files shelf [sample_row].
Proof. apply (process_files_ignores_other_entries shelf [sample_row]). reflexivity. Defined.


Lemma query_string_keys_witness :
  query_calibration_data quiet [sample_row]
    (Return (JArray [JNumber 1; JString "a"; JNull; JBool true]))
  = (Matches (filter_by_keys (key_strings [JNumber 1; JString "a"; JNull; JBool true])
                (zip (filename <$> [sample_row]) [list_to_map [("a", "1"); ("b", "2")]])),
     200%Z).
Proof.
  apply (query_uses_the_string_keys quiet [sample_row]
           [JNumber 1; JString "a"; JNull; JBool true]
           [list_to_map [("a", "1"); ("b", "2")]]).
  - done.
  - reflexivity.
  - reflexivity.
  - repeat constructor.
Defined.

Lemma query_unhashable_witness :
  query_calibration_data quiet [] (Return (JArray [JString "a"; JArray []]))
  = (Matches [], 200%Z) ∧
  ∀ r rows c, Models.get_content r = Return c →
              ∃ msg, query_calibration_data quiet (r :: rows)
                       (Return (JArray [JString "a"; JArray []]))
                     = (ErrorDetails "An unexpected error occurred" msg, 500%Z).
Proof.
  apply (query_with_unhashable_key quiet [JString "a"; JArray []]); reflexivity.
Defined.

(** A record whose content was never set: decoding it raises. *)
Example unset_row_does_not_decode :
  Models.get_content
    {| filename := "x.txt"; pandora_id := Str "1"; spectrometer_id := Str "2";
       version := 3; validity_date := Str "20230101"; content := None |}
  = Raise (TypeError "a bytes-like object is required, not 'NoneType'").
Proof. reflexivity. Qed.

Lemma query_undecodable_witness :
  query_calibration_data quiet
    ([sample_row]
     ++ {| filename := "x.txt"; pandora_id := Str "1"; spectrometer_id := Str "2";
           version := 3; validity_date := Str "20230101"; content := None |} :: [])
    (Return (JArray (JString <$> ["a"])))
  = (ErrorDetails
       (if exn_class_SQLAlchemyError
             (TypeError "a bytes-like object is required, not 'NoneType'")
        then "Database error" else "An unexpected error occurred")
       (str_exn (TypeError "a bytes-like object is required, not 'NoneType'")), 500%Z).
Proof.
  apply (query_fails_on_an_undecodable_record quiet [sample_row] []
           [list_to_map [("a", "1"); ("b", "2")]]).
  - done.
  - reflexivity.
  - repeat constructor.
  - reflexivity.
Defined.


Lemma listing_grows_witness :
  ∃ new,
    (process_files shelf [sample_row]).2 = [sample_row] ++ new ∧ length new = 1 ∧
    get_calibration_file_info None (process_files shelf [sample_row]).2
    = inl (CalibrationFiles
             (((λ r, (filename r, pandora_id r)) <$> [sample_row])
              ++ ((λ r, (filename r, pandora_id r)) <$> new))
             (length [sample_row] + 1), 200%Z).
Proof.
  apply (listing_grows_by_added shelf [sample_row] (process_files shelf [sample_row]).2
           1 1 1
           ["Error processing file Pandora9s9_CF_v1d20200101.txt: [Errno 13] Permission denied"]).
  by vm_compute.
Defined.

Lemma order_of_listing_witness :
  ∃ messages' rows'',
    process_files
      (with_listing shelf
         ["Pandora9s9_CF_v1d20200101.txt"; "README.md"; "Pandora7s1_CF_v2d20240229.txt";
          "notes.txt"; "Pandora1s2_CF_v3d20230101.txt"]) [sample_row]
    = ((Processed 1 1 1 messages', 200%Z), rows'') ∧
    messages'
    ≡ₚ ["Error processing file Pandora9s9_CF_v1d20200101.txt: [Errno 13] Permission denied"] ∧
    rows'' ≡ₚ (process_files shelf [sample_row]).2.
Proof.
  apply (process_files_order_of_listing shelf [sample_row]
           (process_files shelf [sample_row]).2
           ["Pandora1s2_CF_v3d20230101.txt"; "notes.txt";
            "Pandora7s1_CF_v2d20240229.txt"; "README.md";
            "Pandora9s9_CF_v1d20200101.txt"]).
  - reflexivity.
  - apply (bool_decide_unpack _). by vm_compute.
  - apply (bool_decide_unpack _). by vm_compute.
  - by vm_compute.
Defined.

End FurtherExamples.
